(** * The OpenGL state cache of LOVE (src/modules/graphics/opengl/OpenGL.cpp)

    A shallow embedding of the state-tracking members of [love::graphics::
    opengl::OpenGL]: the matrix stacks, the viewport / scissor / blend
    setters, texture units and binding, texture filtering and wrapping,
    the texture-memory and draw-call counters, the vendor detection and
    the context life cycle.  Every driver command the C++ code issues is
    recorded in a trace, so statements about "which call the driver
    receives" are statements about that trace; what the driver answers to
    the queries of [initContext] is a record of answers. *)

From Stdlib Require Import ZArith Lia Bool.
From Stdlib Require Import SpecFloat.
From stdpp Require Import base option list strings pretty.

Local Open Scope Z_scope.

(** ** Machine integers *)

(** [int] / [GLint] / [GLsizei]: 32-bit two's complement.  [to_int] is the
    value an arithmetic result has once it is stored back in an [int];
    signed overflow, which C++ leaves undefined, wraps around here as it
    does on the targets. *)
Definition INT_MIN : Z := - 2 ^ 31.
Definition INT_MAX : Z := 2 ^ 31 - 1.
Definition is_int (z : Z) : Prop := INT_MIN <= z <= INT_MAX.
Definition to_int (z : Z) : Z := (z + 2 ^ 31) mod 2 ^ 32 - 2 ^ 31.
Definition int_add (a b : Z) : Z := to_int (a + b).
Definition int_sub (a b : Z) : Z := to_int (a - b).

(** [int64]: 64-bit two's complement ([common/int64.h]). *)
Definition is_int64 (z : Z) : Prop := - 2 ^ 63 <= z <= 2 ^ 63 - 1.
Definition to_int64 (z : Z) : Z := (z + 2 ^ 63) mod 2 ^ 64 - 2 ^ 63.
Definition int64_add (a b : Z) : Z := to_int64 (a + b).
Definition int64_sub (a b : Z) : Z := to_int64 (a - b).

(** [size_t]: unsigned, as wide as the target says. *)
Definition is_size_t (bits z : Z) : Prop := 0 <= z < 2 ^ bits.
Definition to_size_t (bits z : Z) : Z := z mod 2 ^ bits.

(** [GLuint] handles and [GLenum] values are unsigned 32-bit numbers; the
    code only ever compares them. *)
Definition GLuint := Z.
Definition GLenum := Z.

(** ** Floats *)

(** [float] / [GLfloat]: IEEE-754 binary32.  The code below only compares
    floats ([std::min], [std::max]), which [SFltb] specifies. *)
Definition GLfloat := spec_float.
Definition f32_prec : Z := 24.
Definition f32_emax : Z := 128.
Definition is_float (f : GLfloat) : Prop := valid_binary f32_prec f32_emax f = true.
Definition f32_zero : GLfloat := S754_zero false.
Definition f32_one : GLfloat := S754_finite false 8388608 (-23).
Definition f32_is_nan (f : GLfloat) : bool :=
  match f with S754_nan => true | _ => false end.

(** [std::max(a, b)] is [(a < b) ? b : a] and [std::min(a, b)] is
    [(b < a) ? b : a]. *)
Definition std_max (a b : GLfloat) : GLfloat := if SFltb a b then b else a.
Definition std_min (a b : GLfloat) : GLfloat := if SFltb b a then b else a.

(** ** Constants of the OpenGL headers used below *)

Definition GL_ZERO : GLenum := 0.
Definition GL_ONE : GLenum := 1.
Definition GL_TEXTURE_2D : GLenum := 0x0DE1.
Definition GL_NEAREST : GLenum := 0x2600.
Definition GL_LINEAR : GLenum := 0x2601.
Definition GL_NEAREST_MIPMAP_NEAREST : GLenum := 0x2700.
Definition GL_LINEAR_MIPMAP_NEAREST : GLenum := 0x2701.
Definition GL_NEAREST_MIPMAP_LINEAR : GLenum := 0x2702.
Definition GL_LINEAR_MIPMAP_LINEAR : GLenum := 0x2703.
Definition GL_TEXTURE_MAG_FILTER : GLenum := 0x2800.
Definition GL_TEXTURE_MIN_FILTER : GLenum := 0x2801.
Definition GL_FUNC_ADD : GLenum := 0x8006.
Definition GL_MIN : GLenum := 0x8007.
Definition GL_MAX : GLenum := 0x8008.
Definition GL_FUNC_SUBTRACT : GLenum := 0x800A.
Definition GL_FUNC_REVERSE_SUBTRACT : GLenum := 0x800B.
Definition GL_TEXTURE0 : GLenum := 0x84C0.
Definition GL_TEXTURE_MAX_ANISOTROPY_EXT : GLenum := 0x84FE.

(** ** Data of OpenGL.h *)

(** Modelled from the spec: [struct OpenGL::Viewport] is declared in
    OpenGL.h, which is not part of the sources at hand; a rectangle
    x, y, width, height of [int]s. *)
Record Viewport := mkViewport { vx : Z; vy : Z; vw : Z; vh : Z }.

Definition is_viewport (v : Viewport) : Prop :=
  is_int (vx v) /\ is_int (vy v) /\ is_int (vw v) /\ is_int (vh v).

(** Modelled from the spec: [struct OpenGL::BlendState] is declared in
    OpenGL.h; an equation and source / destination factors for RGB and for
    alpha, in the order [initContext] initialises them. *)
Record BlendState := mkBlendState {
  srcRGB : GLenum; srcA : GLenum; dstRGB : GLenum; dstA : GLenum; func : GLenum
}.

(** Modelled from the spec: [enum OpenGL::Vendor] is declared in OpenGL.h. *)
Inductive Vendor :=
| VENDOR_ATI_AMD | VENDOR_NVIDIA | VENDOR_INTEL | VENDOR_MESA_SOFT
| VENDOR_APPLE | VENDOR_MICROSOFT | VENDOR_IMGTEC | VENDOR_ARM
| VENDOR_QUALCOMM | VENDOR_BROADCOM | VENDOR_VIVANTE | VENDOR_UNKNOWN.

(** Modelled from the spec: [love::Matrix] (common/Matrix.h) is a 4x4
    matrix of floats whose default constructor gives the identity. *)
Definition Matrix := list GLfloat.
Definition Matrix_new : Matrix :=
  [ f32_one; f32_zero; f32_zero; f32_zero;
    f32_zero; f32_one; f32_zero; f32_zero;
    f32_zero; f32_zero; f32_one; f32_zero;
    f32_zero; f32_zero; f32_zero; f32_one ].

(** Modelled from the spec: [graphics::Texture::Filter] (Texture.h): the
    portable {min, mag, mipmap} description and the anisotropy. *)
Inductive FilterMode := FILTER_NONE | FILTER_LINEAR | FILTER_NEAREST | FILTER_MAX_ENUM.

Record Filter := mkFilter {
  f_min : FilterMode; f_mag : FilterMode; f_mipmap : FilterMode;
  f_anisotropy : GLfloat
}.

#[global] Instance FilterMode_eq_dec : EqDecision FilterMode.
Proof. solve_decision. Defined.

(** The members of the [OpenGL] object that the embedded functions touch. *)
Record OpenGL := mkOpenGL {
  stats_textureMemory : Z;
  maxAnisotropy : GLfloat;
  vendor : Vendor;
  matrices_transform : list Matrix;
  matrices_projection : list Matrix;
  state_viewport : Viewport;
  state_scissor : Viewport;
  state_blend : BlendState;
  state_textureUnits : list GLuint;
  state_curTextureUnit : Z
}.

Definition set_textureMemory (n : Z) (g : OpenGL) : OpenGL :=
  mkOpenGL n (maxAnisotropy g) (vendor g) (matrices_transform g)
    (matrices_projection g) (state_viewport g) (state_scissor g)
    (state_blend g) (state_textureUnits g) (state_curTextureUnit g).
Definition set_vendor (v : Vendor) (g : OpenGL) : OpenGL :=
  mkOpenGL (stats_textureMemory g) (maxAnisotropy g) v (matrices_transform g)
    (matrices_projection g) (state_viewport g) (state_scissor g)
    (state_blend g) (state_textureUnits g) (state_curTextureUnit g).
Definition set_transform (t : list Matrix) (g : OpenGL) : OpenGL :=
  mkOpenGL (stats_textureMemory g) (maxAnisotropy g) (vendor g) t
    (matrices_projection g) (state_viewport g) (state_scissor g)
    (state_blend g) (state_textureUnits g) (state_curTextureUnit g).
Definition set_projection (p : list Matrix) (g : OpenGL) : OpenGL :=
  mkOpenGL (stats_textureMemory g) (maxAnisotropy g) (vendor g)
    (matrices_transform g) p (state_viewport g) (state_scissor g)
    (state_blend g) (state_textureUnits g) (state_curTextureUnit g).
Definition set_viewport (v : Viewport) (g : OpenGL) : OpenGL :=
  mkOpenGL (stats_textureMemory g) (maxAnisotropy g) (vendor g)
    (matrices_transform g) (matrices_projection g) v (state_scissor g)
    (state_blend g) (state_textureUnits g) (state_curTextureUnit g).
Definition set_scissor (v : Viewport) (g : OpenGL) : OpenGL :=
  mkOpenGL (stats_textureMemory g) (maxAnisotropy g) (vendor g)
    (matrices_transform g) (matrices_projection g) (state_viewport g) v
    (state_blend g) (state_textureUnits g) (state_curTextureUnit g).
Definition set_blend (b : BlendState) (g : OpenGL) : OpenGL :=
  mkOpenGL (stats_textureMemory g) (maxAnisotropy g) (vendor g)
    (matrices_transform g) (matrices_projection g) (state_viewport g)
    (state_scissor g) b (state_textureUnits g) (state_curTextureUnit g).
Definition set_textureUnits (u : list GLuint) (g : OpenGL) : OpenGL :=
  mkOpenGL (stats_textureMemory g) (maxAnisotropy g) (vendor g)
    (matrices_transform g) (matrices_projection g) (state_viewport g)
    (state_scissor g) (state_blend g) u (state_curTextureUnit g).
Definition set_curTextureUnit (i : Z) (g : OpenGL) : OpenGL :=
  mkOpenGL (stats_textureMemory g) (maxAnisotropy g) (vendor g)
    (matrices_transform g) (matrices_projection g) (state_viewport g)
    (state_scissor g) (state_blend g) (state_textureUnits g) i.

(** ** The driver *)

(** One constructor per driver entry point called by the embedded code. *)
Inductive GLCall :=
| glViewport (x y w h : Z)
| glScissor (x y w h : Z)
| glBlendEquation (mode : GLenum)
| glBlendEquationEXT (mode : GLenum)
| glBlendFunc (sfactor dfactor : GLenum)
| glBlendFuncSeparate (sRGB dRGB sAlpha dAlpha : GLenum)
| glBlendFuncSeparateEXT (sRGB dRGB sAlpha dAlpha : GLenum)
| glActiveTexture (unit : GLenum)
| glBindTexture (target : GLenum) (texture : GLuint)
| glTexParameteri (target pname : GLenum) (param : GLenum)
| glTexParameterf (target pname : GLenum) (param : GLfloat).

(** What the loader found ([GLAD_*] globals) and the render-target global
    [Canvas::current] (modelled by whether it is non-null). *)
Record Glad := mkGlad {
  GLAD_ES_VERSION_2_0 : bool;
  GLAD_VERSION_1_4 : bool;
  GLAD_EXT_blend_minmax : bool;
  GLAD_EXT_blend_subtract : bool;
  GLAD_EXT_blend_func_separate : bool;
  GLAD_EXT_texture_filter_anisotropic : bool
}.

(** ** Computations on the [OpenGL] object

    A member function either returns (with the updated object and the
    driver calls it made, oldest first), leaves by a [love::Exception]
    (the object and the calls made up to the [throw] stay as they are), or
    has undefined behaviour (an access outside a [std::vector]). *)
Inductive Outcome (A : Type) :=
| Returns (a : A) (g : OpenGL) (calls : list GLCall)
| Throws (what : string) (g : OpenGL) (calls : list GLCall)
| Undefined.
Arguments Returns {A} a g calls.
Arguments Throws {A} what g calls.
Arguments Undefined {A}.

Definition GL (A : Type) : Type := OpenGL -> Outcome A.

Definition gl_ret {A} (a : A) : GL A := fun g => Returns a g [].
Definition gl_bind {A B} (m : GL A) (k : A -> GL B) : GL B := fun g =>
  match m g with
  | Returns a g1 c1 =>
      match k a g1 with
      | Returns b g2 c2 => Returns b g2 (c1 ++ c2)
      | Throws e g2 c2 => Throws e g2 (c1 ++ c2)
      | Undefined => Undefined
      end
  | Throws e g1 c1 => Throws e g1 c1
  | Undefined => Undefined
  end.

#[global] Instance GL_ret : MRet GL := @gl_ret.
#[global] Instance GL_bind : MBind GL := fun A B k m => gl_bind m k.

Definition this : GL OpenGL := fun g => Returns g g [].
Definition update (f : OpenGL -> OpenGL) : GL unit := fun g => Returns tt (f g) [].
Definition driver (c : GLCall) : GL unit := fun g => Returns tt g [c].
Definition throw {A} (what : string) : GL A := fun g => Throws what g [].
Definition undefined {A} : GL A := fun _ => Undefined.
Definition defined {A} (o : option A) : GL A :=
  match o with Some a => mret a | None => undefined end.

(** [std::vector] accesses: [v.back()], [v.pop_back()] and [v[i]] are
    undefined on an empty vector, respectively outside [0, size). *)
Definition vec_back {A} (v : list A) : option A := last v.
Definition vec_pop_back {A} (v : list A) : option (list A) :=
  match v with [] => None | _ => Some (removelast v) end.
Definition vec_at {A} (v : list A) (i : Z) : option A :=
  if decide (0 <= i) then v !! Z.to_nat i else None.
Definition vec_store {A} (v : list A) (i : Z) (a : A) : option (list A) :=
  if decide (0 <= i < Z.of_nat (length v)) then Some (<[Z.to_nat i := a]> v) else None.

(** ** Matrix stacks *)

Definition initMatrices : GL unit :=
  (* clear() both, then push_back(Matrix()) on both *)
  update (set_transform []);;
  update (set_projection []);;
  g ← this;
  update (set_transform (matrices_transform g ++ [Matrix_new]));;
  g ← this;
  update (set_projection (matrices_projection g ++ [Matrix_new])).

Definition pushTransform : GL unit :=
  g ← this;
  top ← defined (vec_back (matrices_transform g));
  update (set_transform (matrices_transform g ++ [top])).

Definition popTransform : GL unit :=
  g ← this;
  rest ← defined (vec_pop_back (matrices_transform g));
  update (set_transform rest).

Definition getTransform : GL Matrix :=
  g ← this;
  defined (vec_back (matrices_transform g)).

(** A sequence of stack operations issued by the engine. *)
Inductive StackOp := Push | Pop.

Definition stack_op (o : StackOp) : GL unit :=
  match o with Push => pushTransform | Pop => popTransform end.

Fixpoint stack_ops (ops : list StackOp) : GL unit :=
  match ops with
  | [] => mret tt
  | o :: rest => stack_op o;; stack_ops rest
  end.

(** Every pop has an earlier push to undo, starting [d] levels deep. *)
Fixpoint nested (d : nat) (ops : list StackOp) : bool :=
  match ops with
  | [] => true
  | Push :: rest => nested (S d) rest
  | Pop :: rest => match d with O => false | S d' => nested d' rest end
  end.

(** The text of [love::Exception ("Invalid texture unit index (%d).",
    textureunit)]: the index printed in decimal. *)
Definition fault_unit_index_d (textureunit : Z) : string :=
  "Invalid texture unit index (" +:+ pretty textureunit +:+ ").".
Arguments fault_unit_index_d : simpl never.

(** The texts of the two capability faults of [setBlendState]. *)
Definition fault_subtract : string :=
  "This graphics card does not support the subtractive blend mode!".
Definition fault_separate : string :=
  "This graphics card does not support separated rgb and alpha blend functions!".

(** ** Viewport and scissor *)

Section Driver.
(** The loader's findings, whether a Canvas is active, and the width of
    [size_t] on the target. *)
Variable glad : Glad.
Variable Canvas_current : bool.
Variable size_t_bits : Z.

Definition setScissor (v : Viewport) : GL unit :=
  g ← this;
  (if Canvas_current
   then driver (glScissor (vx v) (vy v) (vw v) (vh v))
   else
     (* glScissor starts from the lower left of the viewport *)
     driver (glScissor (vx v)
               (int_sub (vh (state_viewport g)) (int_add (vy v) (vh v)))
               (vw v) (vh v)));;
  update (set_scissor v).

Definition getScissor : GL Viewport := g ← this; mret (state_scissor g).

Definition setViewport (v : Viewport) : GL unit :=
  driver (glViewport (vx v) (vy v) (vw v) (vh v));;
  update (set_viewport v);;
  g ← this;
  setScissor (state_scissor g).

Definition getViewport : GL Viewport := g ← this; mret (state_viewport g).

(** ** Blend state *)

Definition setBlendState (blend : BlendState) : GL unit :=
  (if GLAD_ES_VERSION_2_0 glad || GLAD_VERSION_1_4 glad
   then driver (glBlendEquation (func blend))
   else if GLAD_EXT_blend_minmax glad && GLAD_EXT_blend_subtract glad
   then driver (glBlendEquationEXT (func blend))
   else if bool_decide (func blend = GL_FUNC_REVERSE_SUBTRACT)
   then throw fault_subtract
   else mret tt);;
  (if bool_decide (srcRGB blend = srcA blend) && bool_decide (dstRGB blend = dstA blend)
   then driver (glBlendFunc (srcRGB blend) (dstRGB blend))
   else if GLAD_ES_VERSION_2_0 glad || GLAD_VERSION_1_4 glad
   then driver (glBlendFuncSeparate (srcRGB blend) (dstRGB blend) (srcA blend) (dstA blend))
   else if GLAD_EXT_blend_func_separate glad
   then driver (glBlendFuncSeparateEXT (srcRGB blend) (dstRGB blend) (srcA blend) (dstA blend))
   else throw fault_separate);;
  update (set_blend blend).

Definition getBlendState : GL BlendState := g ← this; mret (state_blend g).

(** ** Texture units *)

Definition setTextureUnit (textureunit : Z) : GL unit :=
  g ← this;
  (if bool_decide (textureunit < 0 \/ Z.of_nat (length (state_textureUnits g)) <= textureunit)
   then throw (fault_unit_index_d textureunit)
   else mret tt);;
  (if bool_decide (textureunit <> state_curTextureUnit g)
   then
     if bool_decide (1 < Z.of_nat (length (state_textureUnits g)))
     then driver (glActiveTexture (GL_TEXTURE0 + textureunit))
     else throw "Multitexturing is not supported."
   else mret tt);;
  update (set_curTextureUnit textureunit).

Definition bindTexture (texture : GLuint) : GL unit :=
  g ← this;
  bound ← defined (vec_at (state_textureUnits g) (state_curTextureUnit g));
  if bool_decide (texture <> bound)
  then
    units ← defined (vec_store (state_textureUnits g) (state_curTextureUnit g) texture);
    update (set_textureUnits units);;
    driver (glBindTexture GL_TEXTURE_2D texture)
  else mret tt.

(** ** Texture filter *)

Definition filter_gmin (f : Filter) : GLenum :=
  if bool_decide (f_mipmap f = FILTER_NONE)
  then
    if bool_decide (f_min f = FILTER_NEAREST) then GL_NEAREST else GL_LINEAR
  else
    if bool_decide (f_min f = FILTER_NEAREST) && bool_decide (f_mipmap f = FILTER_NEAREST)
    then GL_NEAREST_MIPMAP_NEAREST
    else if bool_decide (f_min f = FILTER_NEAREST) && bool_decide (f_mipmap f = FILTER_LINEAR)
    then GL_NEAREST_MIPMAP_LINEAR
    else if bool_decide (f_min f = FILTER_LINEAR) && bool_decide (f_mipmap f = FILTER_NEAREST)
    then GL_LINEAR_MIPMAP_NEAREST
    else if bool_decide (f_min f = FILTER_LINEAR) && bool_decide (f_mipmap f = FILTER_LINEAR)
    then GL_LINEAR_MIPMAP_LINEAR
    else GL_LINEAR.

Definition filter_gmag (f : Filter) : GLenum :=
  match f_mag f with
  | FILTER_NEAREST => GL_NEAREST
  | _ => GL_LINEAR
  end.

(** [f] is passed by reference: the function returns the float and leaves
    the caller's filter as the second component. *)
Definition setTextureFilter (f : Filter) : GL (GLfloat * Filter) :=
  g ← this;
  driver (glTexParameteri GL_TEXTURE_2D GL_TEXTURE_MIN_FILTER (filter_gmin f));;
  driver (glTexParameteri GL_TEXTURE_2D GL_TEXTURE_MAG_FILTER (filter_gmag f));;
  if GLAD_EXT_texture_filter_anisotropic glad
  then
    let a := std_min (std_max (f_anisotropy f) f32_one) (maxAnisotropy g) in
    driver (glTexParameterf GL_TEXTURE_2D GL_TEXTURE_MAX_ANISOTROPY_EXT a);;
    mret (a, mkFilter (f_min f) (f_mag f) (f_mipmap f) a)
  else mret (f_anisotropy f, f).

(** ** Texture memory counter *)

Definition updateTextureMemorySize (oldsize newsize : Z) : GL unit :=
  g ← this;
  let memsize :=
    int64_add (to_int64 (stats_textureMemory g))
              (int64_sub (to_int64 newsize) (to_int64 oldsize)) in
  update (set_textureMemory (to_size_t size_t_bits (Z.max memsize 0))).

End Driver.

(** ** Vendor detection *)

(** [strstr(haystack, needle) != NULL]. *)
Fixpoint strstr (haystack needle : string) : bool :=
  if String.prefix needle haystack then true
  else match haystack with
       | EmptyString => false
       | String _ rest => strstr rest needle
       end.

(** [vstr] is the result of [glGetString(GL_VENDOR)], [None] for a null
    pointer. *)
Definition initVendor (vstr : option string) : GL unit :=
  match vstr with
  | None => update (set_vendor VENDOR_UNKNOWN)
  | Some vstr =>
      if strstr vstr "ATI Technologies" then update (set_vendor VENDOR_ATI_AMD)
      else if strstr vstr "NVIDIA" then update (set_vendor VENDOR_NVIDIA)
      else if strstr vstr "Intel" then update (set_vendor VENDOR_INTEL)
      else if strstr vstr "Mesa" then update (set_vendor VENDOR_MESA_SOFT)
      else if strstr vstr "Apple Computer" then update (set_vendor VENDOR_APPLE)
      else if strstr vstr "Microsoft" then update (set_vendor VENDOR_MICROSOFT)
      else if strstr vstr "Imagination" then update (set_vendor VENDOR_IMGTEC)
      else if strstr vstr "ARM" then update (set_vendor VENDOR_ARM)
      else if strstr vstr "Qualcomm" then update (set_vendor VENDOR_QUALCOMM)
      else if strstr vstr "Broadcom" then update (set_vendor VENDOR_BROADCOM)
      else if strstr vstr "Vivante" then update (set_vendor VENDOR_VIVANTE)
      else update (set_vendor VENDOR_UNKNOWN)
  end.

Definition getVendor : GL Vendor := g ← this; mret (vendor g).

(** The spec's wording of the classification: a fixed, priority-ordered
    list of fragments, the first one occurring in the string wins. *)
Definition vendor_fragments : list (string * Vendor) :=
  [ ("ATI Technologies", VENDOR_ATI_AMD); ("NVIDIA", VENDOR_NVIDIA);
    ("Intel", VENDOR_INTEL); ("Mesa", VENDOR_MESA_SOFT);
    ("Apple Computer", VENDOR_APPLE); ("Microsoft", VENDOR_MICROSOFT);
    ("Imagination", VENDOR_IMGTEC); ("ARM", VENDOR_ARM);
    ("Qualcomm", VENDOR_QUALCOMM); ("Broadcom", VENDOR_BROADCOM);
    ("Vivante", VENDOR_VIVANTE) ].

Definition occurs_in (needle haystack : string) : Prop :=
  exists before after, haystack = (before ++ needle ++ after)%string.

Inductive first_match (s : string) : list (string * Vendor) -> Vendor -> Prop :=
| fm_none : first_match s [] VENDOR_UNKNOWN
| fm_here frag v rest : occurs_in frag s -> first_match s ((frag, v) :: rest) v
| fm_later frag v rest v' :
    ~ occurs_in frag s -> first_match s rest v' ->
    first_match s ((frag, v) :: rest) v'.

Definition classify_spec (vstr : option string) (v : Vendor) : Prop :=
  match vstr with
  | None => v = VENDOR_UNKNOWN
  | Some s => first_match s vendor_fragments v
  end.

(** A state to run examples from: what [initContext] leaves on a driver
    with two texture units and an 800x600 window. *)
Definition blend_replace : BlendState :=
  mkBlendState GL_ONE GL_ONE GL_ZERO GL_ZERO GL_FUNC_ADD.

Definition gl0 : OpenGL :=
  mkOpenGL 0 f32_one VENDOR_UNKNOWN [Matrix_new] [Matrix_new]
    (mkViewport 0 0 800 600) (mkViewport 0 0 800 600)
    blend_replace [0; 0] 0.

Definition glad_legacy : Glad := mkGlad false false false false false false.
Definition glad_modern : Glad := mkGlad false true true true true true.

(** ** Vocabulary of the statements *)

(** [initVendor] on [vstr] stores [v], and [getVendor] reads it back. *)
Definition detects (vstr : option string) (v : Vendor) : Prop :=
  forall g, exists g',
    initVendor vstr g = Returns tt g' []
    /\ vendor g' = v
    /\ (initVendor vstr;; getVendor) g = Returns v g' []
    /\ g' = set_vendor (vendor g') g.

(** What the driver offers to [setBlendState], and the calls it then
    receives. *)
Definition has_blend_equation (glad : Glad) : bool :=
  GLAD_ES_VERSION_2_0 glad || GLAD_VERSION_1_4 glad
  || (GLAD_EXT_blend_minmax glad && GLAD_EXT_blend_subtract glad).

Definition has_blend_separate (glad : Glad) : bool :=
  GLAD_ES_VERSION_2_0 glad || GLAD_VERSION_1_4 glad
  || GLAD_EXT_blend_func_separate glad.

Definition factors_combined (blend : BlendState) : Prop :=
  srcRGB blend = srcA blend /\ dstRGB blend = dstA blend.

#[global] Instance factors_combined_dec blend : Decision (factors_combined blend).
Proof. unfold factors_combined. apply _. Defined.

(** The equation call, when the driver has one. *)
Definition equation_calls (glad : Glad) (blend : BlendState) : list GLCall :=
  if GLAD_ES_VERSION_2_0 glad || GLAD_VERSION_1_4 glad
  then [glBlendEquation (func blend)]
  else if GLAD_EXT_blend_minmax glad && GLAD_EXT_blend_subtract glad
  then [glBlendEquationEXT (func blend)]
  else [].

(** The separated factor call, core form first. *)
Definition separate_call (glad : Glad) (blend : BlendState) : GLCall :=
  if GLAD_ES_VERSION_2_0 glad || GLAD_VERSION_1_4 glad
  then glBlendFuncSeparate (srcRGB blend) (dstRGB blend) (srcA blend) (dstA blend)
  else glBlendFuncSeparateEXT (srcRGB blend) (dstRGB blend) (srcA blend) (dstA blend).

(** The current texture unit indexes the vector of bound textures;
    [initContext] establishes this and [setTextureUnit] keeps it. *)
Definition unit_in_range (g : OpenGL) : Prop :=
  0 <= state_curTextureUnit g < Z.of_nat (length (state_textureUnits g)).

(** Sample floats, filters and objects for the examples. *)
Definition f32_16 : GLfloat := S754_finite false 8388608 (-19).
Definition f32_64 : GLfloat := S754_finite false 8388608 (-17).

Definition filter_linear (anisotropy : GLfloat) : Filter :=
  mkFilter FILTER_LINEAR FILTER_LINEAR FILTER_NONE anisotropy.

(** A driver with the anisotropic-filtering extension and a limit of 16x. *)
Definition gl_aniso16 : OpenGL :=
  mkOpenGL 0 f32_16 VENDOR_UNKNOWN [Matrix_new] [Matrix_new]
    (mkViewport 0 0 800 600) (mkViewport 0 0 800 600)
    blend_replace [0; 0] 0.

(** ** Further members: texture units, wrap modes, scoped transforms *)

Definition GL_TEXTURE_WRAP_S : GLenum := 0x2802.
Definition GL_TEXTURE_WRAP_T : GLenum := 0x2803.
Definition GL_REPEAT : GLenum := 0x2901.
Definition GL_CLAMP_TO_EDGE : GLenum := 0x812F.
Definition GL_MIRRORED_REPEAT : GLenum := 0x8370.

Definition fault_unit_index : string := "Invalid texture unit index.".
Definition fault_multitexturing : string := "Multitexturing is not supported.".

Definition bindTextureToUnit (texture : GLuint) (textureunit : Z) (restoreprev : bool)
  : GL unit :=
  g ← this;
  (if bool_decide (textureunit < 0 \/ Z.of_nat (length (state_textureUnits g)) <= textureunit)
   then throw fault_unit_index
   else mret tt);;
  bound ← defined (vec_at (state_textureUnits g) textureunit);
  if bool_decide (texture <> bound)
  then
    let oldtextureunit := state_curTextureUnit g in
    setTextureUnit textureunit;;
    g1 ← this;
    units ← defined (vec_store (state_textureUnits g1) textureunit texture);
    update (set_textureUnits units);;
    driver (glBindTexture GL_TEXTURE_2D texture);;
    if restoreprev then setTextureUnit oldtextureunit else mret tt
  else mret tt.

(** Modelled from the spec: [graphics::Texture::Wrap] (Texture.h): a
    portable wrap mode for each axis. *)
Inductive WrapMode := WRAP_CLAMP | WRAP_REPEAT | WRAP_MIRRORED_REPEAT | WRAP_MAX_ENUM.

Record Wrap := mkWrap { w_s : WrapMode; w_t : WrapMode }.

Definition glWrapMode (wmode : WrapMode) : GLenum :=
  match wmode with
  | WRAP_REPEAT => GL_REPEAT
  | WRAP_MIRRORED_REPEAT => GL_MIRRORED_REPEAT
  | _ => GL_CLAMP_TO_EDGE
  end.

Definition setTextureWrap (w : Wrap) : GL unit :=
  driver (glTexParameteri GL_TEXTURE_2D GL_TEXTURE_WRAP_S (glWrapMode (w_s w)));;
  driver (glTexParameteri GL_TEXTURE_2D GL_TEXTURE_WRAP_T (glWrapMode (w_t w))).

(** [getTransform] returns a reference to the top entry; the engine
    transforms through it ([gl.getTransform().translate (..)] and the
    like).  [throughTransform f] is such a write: the top entry becomes
    [f] of itself. *)
Definition throughTransform (f : Matrix -> Matrix) : GL unit :=
  g ← this;
  top ← defined (vec_back (matrices_transform g));
  rest ← defined (vec_pop_back (matrices_transform g));
  update (set_transform (rest ++ [f top])).

(** Drawing code as the transform stack sees it. *)
Inductive TransformOp :=
| TPush
| TPop
| TThrough (f : Matrix -> Matrix).

Definition transform_op (o : TransformOp) : GL unit :=
  match o with
  | TPush => pushTransform
  | TPop => popTransform
  | TThrough f => throughTransform f
  end.

Fixpoint transform_ops (ops : list TransformOp) : GL unit :=
  match ops with
  | [] => mret tt
  | o :: rest => transform_op o;; transform_ops rest
  end.

(** Scoped code: every push is popped again, and the code pops and
    transforms only inside a push of its own ([d] pushes are open). *)
Fixpoint scoped (d : nat) (ops : list TransformOp) : bool :=
  match ops with
  | [] => bool_decide (d = O)
  | TPush :: rest => scoped (S d) rest
  | TPop :: rest => match d with O => false | S d' => scoped d' rest end
  | TThrough _ :: rest => match d with O => false | S _ => scoped d rest end
  end.

(** ** The driver's texture state

    What [glActiveTexture] and [glBindTexture] do on the driver's side:
    the cache of bound textures is meant to mirror this. *)
Record TexDriver := mkTexDriver {
  drv_active : Z;               (* index of the active unit *)
  drv_bound : list GLuint       (* 2D texture bound to each unit *)
}.

Definition tex_call (c : GLCall) (d : TexDriver) : TexDriver :=
  match c with
  | glActiveTexture unit => mkTexDriver (unit - GL_TEXTURE0) (drv_bound d)
  | glBindTexture target texture =>
      if bool_decide (target = GL_TEXTURE_2D)
      then mkTexDriver (drv_active d)
             (<[Z.to_nat (drv_active d) := texture]> (drv_bound d))
      else d
  | _ => d
  end.

Definition tex_calls (calls : list GLCall) (d : TexDriver) : TexDriver :=
  fold_left (fun d c => tex_call c d) calls d.

(** The cache agrees with the driver. *)
Definition in_step (g : OpenGL) (d : TexDriver) : Prop :=
  state_textureUnits g = drv_bound d /\ state_curTextureUnit g = drv_active d.

(** The texture-unit operations the engine has. *)
Inductive TexOp :=
| OpUnit (textureunit : Z)
| OpBind (texture : GLuint)
| OpBindToUnit (texture : GLuint) (textureunit : Z) (restoreprev : bool).

Definition tex_op (o : TexOp) : GL unit :=
  match o with
  | OpUnit u => setTextureUnit u
  | OpBind t => bindTexture t
  | OpBindToUnit t u r => bindTextureToUnit t u r
  end.

(** A unit index inside the vector of bound textures. *)
Definition unit_valid (g : OpenGL) (u : Z) : Prop :=
  0 <= u < Z.of_nat (length (state_textureUnits g)).

(** The driver calls of a switch from the current unit to [u]. *)
Definition switch_calls (g : OpenGL) (u : Z) : list GLCall :=
  if bool_decide (u = state_curTextureUnit g) then []
  else [glActiveTexture (GL_TEXTURE0 + u)].

Fixpoint tex_ops (ops : list TexOp) : GL unit :=
  match ops with
  | [] => mret tt
  | o :: rest => tex_op o;; tex_ops rest
  end.

(** What one operation leaves behind, whichever way it ends. *)
Definition steps_with (d : TexDriver) (o : Outcome unit) : Prop :=
  match o with
  | Returns _ g' calls | Throws _ g' calls =>
      in_step g' (tex_calls calls d) /\ unit_in_range g'
  | Undefined => False
  end.

(** Filters and wrap modes the engine's front end lets through. *)
Definition filter_mode_ok (m : FilterMode) : Prop :=
  m = FILTER_LINEAR \/ m = FILTER_NEAREST.

Definition valid_filter (f : Filter) : Prop :=
  filter_mode_ok (f_min f) /\ filter_mode_ok (f_mag f)
  /\ (f_mipmap f = FILTER_NONE \/ filter_mode_ok (f_mipmap f)).

Definition is_mipmap_filter (e : GLenum) : Prop :=
  e = GL_NEAREST_MIPMAP_NEAREST \/ e = GL_NEAREST_MIPMAP_LINEAR
  \/ e = GL_LINEAR_MIPMAP_NEAREST \/ e = GL_LINEAR_MIPMAP_LINEAR.

Definition valid_wrap (w : Wrap) : Prop :=
  w_s w <> WRAP_MAX_ENUM /\ w_t w <> WRAP_MAX_ENUM.

(** ** The rest of the object: context life cycle, counters, deletion

    The members and driver entry points the functions below need on top
    of those above.  Colours and the last-uploaded matrices stay outside
    the model; so do the statements of [initContext] that only set them. *)

Definition GL_UNSIGNED_BYTE : GLenum := 0x1401.
Definition GL_MODELVIEW : GLenum := 0x1700.
Definition GL_LUMINANCE : GLenum := 0x1909.

Definition set_maxAnisotropy (a : GLfloat) (g : OpenGL) : OpenGL :=
  mkOpenGL (stats_textureMemory g) a (vendor g) (matrices_transform g)
    (matrices_projection g) (state_viewport g) (state_scissor g)
    (state_blend g) (state_textureUnits g) (state_curTextureUnit g).

(** Modelled from the spec: the remaining members are declared in
    OpenGL.h; [stats.drawCalls] is taken to be an [int]. *)
Record Context := mkContext {
  object : OpenGL;
  contextInitialized : bool;
  stats_drawCalls : Z;
  maxTextureSize : Z;
  maxRenderTargets : Z;
  state_pointSize : GLfloat;
  state_defaultTexture : GLuint;
  state_defaultFBO : GLuint
}.

Definition set_object (g : OpenGL) (c : Context) : Context :=
  mkContext g (contextInitialized c) (stats_drawCalls c) (maxTextureSize c)
    (maxRenderTargets c) (state_pointSize c) (state_defaultTexture c) (state_defaultFBO c).
Definition set_contextInitialized (b : bool) (c : Context) : Context :=
  mkContext (object c) b (stats_drawCalls c) (maxTextureSize c)
    (maxRenderTargets c) (state_pointSize c) (state_defaultTexture c) (state_defaultFBO c).
Definition set_drawCalls (n : Z) (c : Context) : Context :=
  mkContext (object c) (contextInitialized c) n (maxTextureSize c)
    (maxRenderTargets c) (state_pointSize c) (state_defaultTexture c) (state_defaultFBO c).
Definition set_maxTextureSize (n : Z) (c : Context) : Context :=
  mkContext (object c) (contextInitialized c) (stats_drawCalls c) n
    (maxRenderTargets c) (state_pointSize c) (state_defaultTexture c) (state_defaultFBO c).
Definition set_maxRenderTargets (n : Z) (c : Context) : Context :=
  mkContext (object c) (contextInitialized c) (stats_drawCalls c) (maxTextureSize c)
    n (state_pointSize c) (state_defaultTexture c) (state_defaultFBO c).
Definition set_pointSize (f : GLfloat) (c : Context) : Context :=
  mkContext (object c) (contextInitialized c) (stats_drawCalls c) (maxTextureSize c)
    (maxRenderTargets c) f (state_defaultTexture c) (state_defaultFBO c).
Definition set_defaultTexture (t : GLuint) (c : Context) : Context :=
  mkContext (object c) (contextInitialized c) (stats_drawCalls c) (maxTextureSize c)
    (maxRenderTargets c) (state_pointSize c) t (state_defaultFBO c).
Definition set_defaultFBO (t : GLuint) (c : Context) : Context :=
  mkContext (object c) (contextInitialized c) (stats_drawCalls c) (maxTextureSize c)
    (maxRenderTargets c) (state_pointSize c) (state_defaultTexture c) t.

(** Driver commands: those above and the ones only these functions use.
    [glGenTextures] carries the name the driver handed out. *)
Inductive DriverCall :=
| gl_call (c : GLCall)
| glGenTextures (n : Z) (name : GLuint)
| glDeleteTextures (n : Z) (texture : GLuint)
| glTexImage2D (target : GLenum) (level : Z) (internalformat : GLenum)
    (width height border : Z) (format type : GLenum) (pixels : list Z)
| glDrawArrays (mode : GLenum) (first count : Z)
| glDrawElements (mode : GLenum) (count : Z) (type : GLenum) (indices : Z)
| glDrawElementsBaseVertex (mode : GLenum) (count : Z) (type : GLenum)
    (indices : Z) (basevertex : Z)
| glPointSize (size : GLfloat)
| glMatrixMode (mode : GLenum).

(** What the loader and the sibling modules report. *)
Record Platform := mkPlatform {
  pf_glad : Glad;
  GLAD_VERSION_1_0 : bool;
  GLAD_VERSION_1_1 : bool;
  GLAD_VERSION_2_0 : bool;
  GLAD_ARB_draw_buffers : bool;
  Shader_isSupported : bool;
  Canvas_isSupported : bool
}.

(** What the driver answers while [initContext] runs: the result of
    [gladLoadGL], the [glGet*] values, the driver's texture state at that
    moment, and the name [glGenTextures] hands out. *)
Record Answers := mkAnswers {
  gladLoadGL : bool;
  GL_VENDOR : option string;
  GL_VIEWPORT : Viewport;
  GL_SCISSOR_BOX : Viewport;
  GL_POINT_SIZE : GLfloat;
  GL_DRAW_FRAMEBUFFER_BINDING : GLuint;
  GL_MAX_TEXTURE_MAX_ANISOTROPY_EXT : GLfloat;
  GL_MAX_TEXTURE_SIZE : Z;
  GL_MAX_COLOR_ATTACHMENTS : Z;
  GL_MAX_DRAW_BUFFERS : Z;
  textures : TexDriver;
  generated_texture : GLuint
}.

Definition GL_MAX_COMBINED_TEXTURE_IMAGE_UNITS (a : Answers) : Z :=
  Z.of_nat (length (drv_bound (textures a))).
Definition GL_ACTIVE_TEXTURE (a : Answers) : GLenum :=
  GL_TEXTURE0 + drv_active (textures a).
(** [GL_TEXTURE_BINDING_2D], asked while [unit] is the active unit. *)
Definition GL_TEXTURE_BINDING_2D (a : Answers) (unit : GLenum) : GLuint :=
  default 0 (drv_bound (textures a) !! Z.to_nat (unit - GL_TEXTURE0)).

Inductive Result (A : Type) :=
| Done (a : A) (c : Context) (calls : list DriverCall)
| Raised (what : string) (c : Context) (calls : list DriverCall)
| Unspecified.
Arguments Done {A} a c calls.
Arguments Raised {A} what c calls.
Arguments Unspecified {A}.

Definition CTX (A : Type) : Type := Context -> Result A.

Definition ctx_ret {A} (a : A) : CTX A := fun c => Done a c [].
Definition ctx_bind {A B} (m : CTX A) (k : A -> CTX B) : CTX B := fun c =>
  match m c with
  | Done a c1 k1 =>
      match k a c1 with
      | Done b c2 k2 => Done b c2 (k1 ++ k2)
      | Raised e c2 k2 => Raised e c2 (k1 ++ k2)
      | Unspecified => Unspecified
      end
  | Raised e c1 k1 => Raised e c1 k1
  | Unspecified => Unspecified
  end.

#[global] Instance CTX_ret : MRet CTX := @ctx_ret.
#[global] Instance CTX_bind : MBind CTX := fun A B k m => ctx_bind m k.

Definition self : CTX Context := fun c => Done c c [].
Definition modify (f : Context -> Context) : CTX unit := fun c => Done tt (f c) [].
Definition command (k : DriverCall) : CTX unit := fun c => Done tt c [k].
Definition unspecified {A} : CTX A := fun _ => Unspecified.

(** A member function modelled above, run on the object inside. *)
Definition lift {A} (m : GL A) : CTX A := fun c =>
  match m (object c) with
  | Returns a g calls => Done a (set_object g c) (gl_call <$> calls)
  | Throws e g calls => Raised e (set_object g c) (gl_call <$> calls)
  | Undefined => Unspecified
  end.

(** *** Draw calls *)

Definition drawArrays (mode : GLenum) (first count : Z) : CTX unit :=
  command (glDrawArrays mode first count);;
  c ← self; modify (set_drawCalls (int_add (stats_drawCalls c) 1)).

Definition drawElements (mode : GLenum) (count : Z) (type : GLenum) (indices : Z)
  : CTX unit :=
  command (glDrawElements mode count type indices);;
  c ← self; modify (set_drawCalls (int_add (stats_drawCalls c) 1)).

Definition drawElementsBaseVertex (mode : GLenum) (count : Z) (type : GLenum)
    (indices : Z) (basevertex : Z) : CTX unit :=
  command (glDrawElementsBaseVertex mode count type indices basevertex);;
  c ← self; modify (set_drawCalls (int_add (stats_drawCalls c) 1)).

(** *** Texture deletion *)

Definition deleteTexture (texture : GLuint) : CTX unit :=
  (* glDeleteTextures binds texture 0 to all texture units the deleted
     texture was bound to before deletion. *)
  lift (g ← this;
        update (set_textureUnits
                  ((fun texid => if bool_decide (texid = texture) then 0 else texid)
                     <$> state_textureUnits g)));;
  command (glDeleteTextures 1 texture).

Section Lifecycle.
Variable pf : Platform.
Variable answers : Answers.

Definition setPointSize (size : GLfloat) : CTX unit :=
  (if GLAD_VERSION_1_0 pf then command (glPointSize size) else mret tt);;
  modify (set_pointSize size).

Definition initMaxValues : CTX unit :=
  (* We'll need this value to clamp anisotropy. *)
  (if GLAD_EXT_texture_filter_anisotropic (pf_glad pf)
   then lift (update (set_maxAnisotropy (GL_MAX_TEXTURE_MAX_ANISOTROPY_EXT answers)))
   else lift (update (set_maxAnisotropy f32_one)));;
  modify (set_maxTextureSize (GL_MAX_TEXTURE_SIZE answers));;
  if Canvas_isSupported pf && (GLAD_VERSION_2_0 pf || GLAD_ARB_draw_buffers pf)
  then modify (set_maxRenderTargets
                 (Z.min (GL_MAX_COLOR_ATTACHMENTS answers) (GL_MAX_DRAW_BUFFERS answers)))
  else modify (set_maxRenderTargets 0).

Definition createDefaultTexture : CTX unit :=
  c ← self;
  curtexture ← lift (defined (vec_at (state_textureUnits (object c))
                                 (state_curTextureUnit (object c))));
  command (glGenTextures 1 (generated_texture answers));;
  modify (set_defaultTexture (generated_texture answers));;
  c1 ← self;
  lift (bindTexture (state_defaultTexture c1));;
  lift (driver (glTexParameteri GL_TEXTURE_2D GL_TEXTURE_MIN_FILTER GL_NEAREST));;
  lift (driver (glTexParameteri GL_TEXTURE_2D GL_TEXTURE_MAG_FILTER GL_NEAREST));;
  lift (driver (glTexParameteri GL_TEXTURE_2D GL_TEXTURE_WRAP_S GL_REPEAT));;
  lift (driver (glTexParameteri GL_TEXTURE_2D GL_TEXTURE_WRAP_T GL_REPEAT));;
  command (glTexImage2D GL_TEXTURE_2D 0 GL_LUMINANCE 1 1 0 GL_LUMINANCE
             GL_UNSIGNED_BYTE [255]);;
  lift (bindTexture curtexture).

(** The loop of [initContext] over the texture units, from unit [i] on:
    make the unit active, store what is bound to it. *)
Fixpoint read_texture_units (n : nat) (i : Z) : GL unit :=
  match n with
  | O => mret tt
  | S n' =>
      driver (glActiveTexture (GL_TEXTURE0 + i));;
      g ← this;
      units ← defined (vec_store (state_textureUnits g) i
                         (GL_TEXTURE_BINDING_2D answers (GL_TEXTURE0 + i)));
      update (set_textureUnits units);;
      read_texture_units n' (i + 1)
  end.

Definition initContext : CTX bool :=
  c ← self;
  if contextInitialized c then mret true
  else if negb (gladLoadGL answers) then mret false
  else
    (* initOpenGLFunctions only aliases entry points *)
    lift (initVendor (GL_VENDOR answers));;
    lift initMatrices;;
    (* Get the current viewport. *)
    lift (update (set_viewport (GL_VIEWPORT answers)));;
    (* And the current scissor - but we need to compensate for GL scissors
       starting at the bottom left instead of top left. *)
    lift (update (set_scissor (GL_SCISSOR_BOX answers)));;
    lift (g ← this;
          update (set_scissor
                    (mkViewport (vx (state_scissor g))
                       (int_sub (vh (state_viewport g))
                          (int_add (vy (state_scissor g)) (vh (state_scissor g))))
                       (vw (state_scissor g)) (vh (state_scissor g)))));;
    (if GLAD_VERSION_1_0 pf
     then modify (set_pointSize (GL_POINT_SIZE answers))
     else modify (set_pointSize f32_one));;
    (* Initialize multiple texture unit support for shaders, if available. *)
    lift (update (set_textureUnits []));;
    (if Shader_isSupported pf
     then
       let maxtextureunits := GL_MAX_COMBINED_TEXTURE_IMAGE_UNITS answers in
       lift (update (set_textureUnits (replicate (Z.to_nat maxtextureunits) 0)));;
       let curgltextureunit := GL_ACTIVE_TEXTURE answers in
       lift (update (set_curTextureUnit (int_sub curgltextureunit GL_TEXTURE0)));;
       (* Retrieve currently bound textures for each texture unit. *)
       lift (g ← this; read_texture_units (length (state_textureUnits g)) 0);;
       lift (driver (glActiveTexture curgltextureunit))
     else
       (* Multitexturing not supported, so we only have 1 texture unit. *)
       lift (update (set_textureUnits (replicate 1 0)));;
       lift (update (set_curTextureUnit 0));;
       lift (g ← this;
             units ← defined (vec_store (state_textureUnits g) 0
                                (GL_TEXTURE_BINDING_2D answers (GL_ACTIVE_TEXTURE answers)));
             update (set_textureUnits units)));;
    (* This will be non-zero on some platforms. *)
    (if Canvas_isSupported pf
     then modify (set_defaultFBO (GL_DRAW_FRAMEBUFFER_BINDING answers))
     else mret tt);;
    lift (setBlendState (pf_glad pf) (mkBlendState GL_ONE GL_ONE GL_ZERO GL_ZERO GL_FUNC_ADD));;
    initMaxValues;;
    createDefaultTexture;;
    (if GLAD_VERSION_1_1 pf then command (glMatrixMode GL_MODELVIEW) else mret tt);;
    modify (set_contextInitialized true);;
    mret true.

End Lifecycle.

Definition deInitContext : CTX unit :=
  c ← self;
  if negb (contextInitialized c) then mret tt
  else
    command (glDeleteTextures 1 (state_defaultTexture c));;
    modify (set_defaultTexture 0);;
    modify (set_contextInitialized false).

(** The driver's texture state under all commands: deleting a texture
    binds texture 0 wherever it was bound; the other new commands leave
    the bindings alone. *)
Definition tex_command (k : DriverCall) (d : TexDriver) : TexDriver :=
  match k with
  | gl_call c => tex_call c d
  | glDeleteTextures _ texture =>
      mkTexDriver (drv_active d)
        ((fun t => if bool_decide (t = texture) then 0 else t) <$> drv_bound d)
  | _ => d
  end.

Definition tex_commands (calls : list DriverCall) (d : TexDriver) : TexDriver :=
  fold_left (fun d k => tex_command k d) calls d.

(** A draw command, as the engine issues it. *)
Inductive Draw :=
| DrawArrays (mode : GLenum) (first count : Z)
| DrawElements (mode : GLenum) (count : Z) (type : GLenum) (indices : Z)
| DrawElementsBaseVertex (mode : GLenum) (count : Z) (type : GLenum)
    (indices : Z) (basevertex : Z).

Definition draw (w : Draw) : CTX unit :=
  match w with
  | DrawArrays m f n => drawArrays m f n
  | DrawElements m n t i => drawElements m n t i
  | DrawElementsBaseVertex m n t i b => drawElementsBaseVertex m n t i b
  end.

Definition draw_command (w : Draw) : DriverCall :=
  match w with
  | DrawArrays m f n => glDrawArrays m f n
  | DrawElements m n t i => glDrawElements m n t i
  | DrawElementsBaseVertex m n t i b => glDrawElementsBaseVertex m n t i b
  end.

Fixpoint draws (ws : list Draw) : CTX unit :=
  match ws with
  | [] => mret tt
  | w :: rest => draw w;; draws rest
  end.

(** A context before [initContext], as the constructor leaves it. *)
Definition ctx0 : Context :=
  mkContext
    (mkOpenGL 0 f32_one VENDOR_UNKNOWN [] [] (mkViewport 0 0 0 0) (mkViewport 0 0 0 0)
       (mkBlendState 0 0 0 0 0) [] 0)
    false 0 0 0 f32_zero 0 0.

(** Texture-unit operations and deletions, as they reach the context. *)
Inductive CtxOp :=
| Tex (o : TexOp)
| Delete (texture : GLuint).

Definition ctx_op (o : CtxOp) : CTX unit :=
  match o with
  | Tex o => lift (tex_op o)
  | Delete t => deleteTexture t
  end.

Fixpoint ctx_ops (ops : list CtxOp) : CTX unit :=
  match ops with
  | [] => mret tt
  | o :: rest => ctx_op o;; ctx_ops rest
  end.

(** The cache agrees with the driver that has received [calls]. *)
Definition mirrors (d : TexDriver) (r : Result unit) : Prop :=
  match r with
  | Done _ c' calls | Raised _ c' calls =>
      in_step (object c') (tex_commands calls d) /\ unit_in_range (object c')
  | Unspecified => False
  end.

(** What [deleteTexture] does to a cached handle. *)
Definition unbind (texture : GLuint) (texid : GLuint) : GLuint :=
  if bool_decide (texid = texture) then 0 else texid.

(** The commands of [createDefaultTexture] between its two binds. *)
Definition default_texture_setup : list DriverCall :=
  [ gl_call (glTexParameteri GL_TEXTURE_2D GL_TEXTURE_MIN_FILTER GL_NEAREST);
    gl_call (glTexParameteri GL_TEXTURE_2D GL_TEXTURE_MAG_FILTER GL_NEAREST);
    gl_call (glTexParameteri GL_TEXTURE_2D GL_TEXTURE_WRAP_S GL_REPEAT);
    gl_call (glTexParameteri GL_TEXTURE_2D GL_TEXTURE_WRAP_T GL_REPEAT);
    glTexImage2D GL_TEXTURE_2D 0 GL_LUMINANCE 1 1 0 GL_LUMINANCE GL_UNSIGNED_BYTE [255] ].

(** The bind [bindTexture to] makes when [from] is cached. *)
Definition rebind (from to : GLuint) : list DriverCall :=
  if bool_decide (to = from) then [] else [gl_call (glBindTexture GL_TEXTURE_2D to)].

(** The texture the driver has bound to its active unit. *)
Definition drv_current (d : TexDriver) : option GLuint :=
  drv_bound d !! Z.to_nat (drv_active d).

(** The scissor [initContext] caches for the box the driver reports:
    the same box with its origin moved to the top left. *)
Definition scissor_read (a : Answers) : Viewport :=
  mkViewport (vx (GL_SCISSOR_BOX a))
    (to_int (vh (GL_VIEWPORT a) - (vy (GL_SCISSOR_BOX a) + vh (GL_SCISSOR_BOX a))))
    (vw (GL_SCISSOR_BOX a)) (vh (GL_SCISSOR_BOX a)).

(** What every successful [initContext] establishes. *)
Definition initialized_from (a : Answers) (c c' : Context) : Prop :=
  contextInitialized c' = true
  /\ classify_spec (GL_VENDOR a) (vendor (object c'))
  /\ matrices_transform (object c') = [Matrix_new]
  /\ matrices_projection (object c') = [Matrix_new]
  /\ state_viewport (object c') = GL_VIEWPORT a
  /\ state_scissor (object c') = scissor_read a
  /\ state_blend (object c') = blend_replace
  /\ state_defaultTexture c' = generated_texture a
  /\ unit_in_range (object c')
  /\ stats_textureMemory (object c') = stats_textureMemory (object c)
  /\ stats_drawCalls c' = stats_drawCalls c.

(** A driver whose active unit is one of its units. *)
Definition sane_units (a : Answers) : Prop :=
  0 <= drv_active (textures a) < Z.of_nat (length (drv_bound (textures a)))
  /\ is_int (drv_active (textures a)).

(** * Properties *)

Ltac gl_unfold :=
  unfold mbind, mret, GL_bind, GL_ret, gl_bind, gl_ret,
    this, update, driver, throw, undefined, defined in *.

Ltac gl_run := repeat (progress (gl_unfold; cbn in *)).

Create Rewrite HintDb glstate.

(** ** Record updates *)

Lemma set_transform_same g : set_transform (matrices_transform g) g = g.
Proof. by destruct g. Qed.

Lemma set_transform_twice t u g :
  set_transform t (set_transform u g) = set_transform t g.
Proof. by destruct g. Qed.

Lemma set_scissor_same g : set_scissor (state_scissor g) g = g.
Proof. by destruct g. Qed.

#[global] Hint Rewrite set_transform_same set_transform_twice set_scissor_same : glstate.

(** ** Machine arithmetic *)

Lemma to_int_id z : is_int z -> to_int z = z.
Proof.
  unfold is_int, INT_MIN, INT_MAX, to_int. intros Hz.
  rewrite Z.mod_small; lia.
Qed.

Lemma to_int_is_int z : is_int (to_int z).
Proof.
  unfold is_int, INT_MIN, INT_MAX, to_int.
  pose proof (Z.mod_pos_bound (z + 2 ^ 31) (2 ^ 32)). lia.
Qed.

(** Storing an intermediate sum in an [int] does not change the final
    difference once that is stored in an [int] too. *)
Lemma int_sub_add a b c : int_sub a (int_add b c) = to_int (a - (b + c)).
Proof.
  unfold int_sub, int_add, to_int. f_equal.
  replace (a - ((b + c + 2 ^ 31) mod 2 ^ 32 - 2 ^ 31) + 2 ^ 31)
    with ((a + 2 ^ 32) - (b + c + 2 ^ 31) mod 2 ^ 32) by lia.
  rewrite Zminus_mod_idemp_r.
  replace (a + 2 ^ 32 - (b + c + 2 ^ 31)) with (a - (b + c) + 2 ^ 31) by lia.
  reflexivity.
Qed.

Lemma to_int64_id z : is_int64 z -> to_int64 z = z.
Proof.
  unfold is_int64, to_int64. intros Hz. rewrite Z.mod_small; lia.
Qed.

(** ** Matrix stacks *)

Lemma vec_back_snoc {A} (t : list A) (m : A) : vec_back (t ++ [m]) = Some m.
Proof. unfold vec_back. apply last_snoc. Qed.

Lemma vec_back_is_Some {A} (t : list A) : t <> [] -> exists m, vec_back t = Some m.
Proof.
  intros Ht. destruct (vec_back t) as [m|] eqn:E; [by exists m|].
  unfold vec_back in E. apply last_None in E. done.
Qed.

Lemma vec_pop_back_snoc {A} (t : list A) (m : A) : vec_pop_back (t ++ [m]) = Some t.
Proof.
  unfold vec_pop_back. rewrite removelast_last. by destruct t.
Qed.

Lemma snoc_of_nonempty {A} (t : list A) : t <> [] -> exists r m, t = r ++ [m].
Proof.
  intros Ht. destruct (exists_last Ht) as (r & m & ->). eauto.
Qed.

Lemma pushTransform_snoc g t m :
  matrices_transform g = t ++ [m] ->
  pushTransform g = Returns tt (set_transform ((t ++ [m]) ++ [m]) g) [].
Proof.
  intros Hg. unfold pushTransform. gl_unfold. cbn.
  rewrite Hg, vec_back_snoc. reflexivity.
Qed.

Lemma popTransform_snoc g t m :
  matrices_transform g = t ++ [m] ->
  popTransform g = Returns tt (set_transform t g) [].
Proof.
  intros Hg. unfold popTransform. gl_unfold. cbn.
  rewrite Hg, vec_pop_back_snoc. reflexivity.
Qed.

Lemma stack_ops_step o rest g g1 :
  stack_op o g = Returns tt g1 [] ->
  stack_ops (o :: rest) g = stack_ops rest g1.
Proof.
  intros Ho. cbn. gl_unfold. rewrite Ho.
  destruct (stack_ops rest g1); reflexivity.
Qed.

(** A push followed, after any well-nested work that is itself undone,
    by its pop. *)
Lemma pushes_then_pops n : forall g k,
  matrices_transform g <> [] ->
  stack_ops (replicate n Push ++ replicate n Pop ++ k) g = stack_ops k g.
Proof.
  induction n as [|n IH]; intros g k Hg; [reflexivity|].
  destruct (snoc_of_nonempty _ Hg) as (t & m & Ht).
  change (replicate (S n) Push ++ replicate (S n) Pop ++ k)
    with (Push :: (replicate n Push ++ replicate (S n) Pop ++ k)).
  rewrite (stack_ops_step Push _ g _ (pushTransform_snoc g t m Ht)).
  replace (replicate (S n) Pop ++ k) with (replicate n Pop ++ Pop :: k)
    by (cbn [replicate]; rewrite replicate_cons_app, <- app_assoc; reflexivity).
  rewrite IH by (cbn; by destruct t).
  rewrite (stack_ops_step Pop k _ (set_transform (t ++ [m]) g)).
  - by rewrite <- Ht, set_transform_same.
  - cbn. rewrite (popTransform_snoc _ (t ++ [m]) m) by reflexivity.
    by rewrite set_transform_twice.
Qed.

Lemma nested_stack_ops ops : forall d g,
  length (matrices_transform g) = S d ->
  nested d ops = true ->
  exists g', stack_ops ops g = Returns tt g' []
    /\ (1 <= length (matrices_transform g'))%nat
    /\ matrices_projection g' = matrices_projection g.
Proof.
  induction ops as [|[|] ops IH]; intros d g Hlen Hn.
  - exists g. cbn. repeat split. lia.
  - assert (Hne : matrices_transform g <> []) by (intros E; by rewrite E in Hlen).
    destruct (snoc_of_nonempty _ Hne) as (t & m & Ht).
    rewrite (stack_ops_step Push ops g _ (pushTransform_snoc g t m Ht)).
    destruct (IH (S d) (set_transform ((t ++ [m]) ++ [m]) g)) as (g' & ? & ? & ?).
    + cbn. rewrite length_app. cbn. rewrite <- Ht. lia.
    + exact Hn.
    + exists g'. repeat split; try done; by destruct g.
  - destruct d as [|d]; [discriminate|].
    assert (Hne : matrices_transform g <> []) by (intros E; by rewrite E in Hlen).
    destruct (snoc_of_nonempty _ Hne) as (t & m & Ht).
    rewrite (stack_ops_step Pop ops g _ (popTransform_snoc g t m Ht)).
    destruct (IH d (set_transform t g)) as (g' & ? & ? & ?).
    + cbn. rewrite Ht, length_app in Hlen. cbn in Hlen. lia.
    + exact Hn.
    + exists g'. repeat split; try done; by destruct g.
Qed.

Lemma initMatrices_run g :
  initMatrices g =
    Returns tt (set_projection [Matrix_new] (set_transform [Matrix_new] g)) [].
Proof. by destruct g. Qed.

(** ** Texture units *)

Lemma vec_at_Some {A} (v : list A) i a :
  vec_at v i = Some a -> 0 <= i < Z.of_nat (length v) /\ v !! Z.to_nat i = Some a.
Proof.
  unfold vec_at. case_decide; [|done]. intros Hl. split; [|done].
  apply lookup_lt_Some in Hl. lia.
Qed.

Lemma vec_store_at {A} (v : list A) i a b :
  vec_at v i = Some b ->
  vec_store v i a = Some (<[Z.to_nat i := a]> v)
  /\ vec_at (<[Z.to_nat i := a]> v) i = Some a.
Proof.
  intros [Hi Hl]%vec_at_Some. unfold vec_store, vec_at.
  rewrite !decide_True by lia. split; [done|].
  apply list_lookup_insert_eq. by eapply lookup_lt_Some.
Qed.

Lemma bindTexture_same g bound :
  vec_at (state_textureUnits g) (state_curTextureUnit g) = Some bound ->
  bindTexture bound g = Returns tt g [].
Proof.
  intros Hb. unfold bindTexture. gl_run. rewrite Hb. gl_run.
  by rewrite bool_decide_false by tauto.
Qed.

Lemma bindTexture_other g bound t :
  vec_at (state_textureUnits g) (state_curTextureUnit g) = Some bound ->
  t <> bound ->
  bindTexture t g =
    Returns tt
      (set_textureUnits (<[Z.to_nat (state_curTextureUnit g) := t]> (state_textureUnits g)) g)
      [glBindTexture GL_TEXTURE_2D t].
Proof.
  intros Hb Ht. unfold bindTexture. gl_run. rewrite Hb. gl_run.
  rewrite bool_decide_true by done.
  destruct (vec_store_at _ _ t _ Hb) as [-> _]. reflexivity.
Qed.

Lemma unit_in_range_bound g :
  unit_in_range g ->
  exists bound, vec_at (state_textureUnits g) (state_curTextureUnit g) = Some bound.
Proof.
  intros [Hlo Hhi]. unfold vec_at. rewrite decide_True by done.
  destruct (lookup_lt_is_Some_2 (state_textureUnits g) (Z.to_nat (state_curTextureUnit g)))
    as [bound Hb]; [lia|]. by exists bound.
Qed.

(** [setTextureUnit] only ever returns with the current unit in range. *)
Lemma setTextureUnit_in_range textureunit g g' calls :
  setTextureUnit textureunit g = Returns tt g' calls -> unit_in_range g'.
Proof.
  unfold setTextureUnit, unit_in_range. gl_run.
  repeat case_bool_decide; gl_run; try discriminate;
    intros [= <- _]; cbn; lia.
Qed.

Lemma bindTexture_in_range t g g' calls :
  unit_in_range g -> bindTexture t g = Returns tt g' calls -> unit_in_range g'.
Proof.
  intros Hg. destruct (unit_in_range_bound g Hg) as [bound Hb].
  destruct (decide (t = bound)) as [->|Hne].
  - rewrite (bindTexture_same g bound Hb). by intros [= <- _].
  - rewrite (bindTexture_other g bound t Hb Hne). intros [= <- _].
    unfold unit_in_range in *. cbn. by rewrite length_insert.
Qed.

(** ** Blend state *)

Ltac blend_cases glad blend :=
  unfold setBlendState, has_blend_equation, has_blend_separate,
    equation_calls, separate_call, factors_combined in *;
  destruct glad as [es v14 mm sub sep aniso], blend as [sr sa dr da fn];
  gl_unfold; cbn in *;
  destruct es, v14, mm, sub, sep; cbn in *;
  repeat case_bool_decide; cbn in *.

Lemma setBlendState_equation_fault glad blend g :
  has_blend_equation glad = false ->
  func blend = GL_FUNC_REVERSE_SUBTRACT ->
  setBlendState glad blend g = Throws fault_subtract g [].
Proof. intros Hm Hf. blend_cases glad blend; congruence. Qed.

Lemma setBlendState_combined glad blend g :
  has_blend_equation glad = true \/ func blend <> GL_FUNC_REVERSE_SUBTRACT ->
  factors_combined blend ->
  setBlendState glad blend g =
    Returns tt (set_blend blend g)
      (equation_calls glad blend ++ [glBlendFunc (srcRGB blend) (dstRGB blend)]).
Proof.
  intros Hm Hc. blend_cases glad blend; try reflexivity;
    try tauto; try (destruct Hm; congruence).
Qed.

Lemma setBlendState_separate glad blend g :
  has_blend_equation glad = true \/ func blend <> GL_FUNC_REVERSE_SUBTRACT ->
  ~ factors_combined blend ->
  has_blend_separate glad = true ->
  setBlendState glad blend g =
    Returns tt (set_blend blend g)
      (equation_calls glad blend ++ [separate_call glad blend]).
Proof.
  intros Hm Hc Hs. blend_cases glad blend; try reflexivity;
    try tauto; try congruence; try (destruct Hm; congruence).
Qed.

Lemma setBlendState_separate_fault glad blend g :
  has_blend_equation glad = true \/ func blend <> GL_FUNC_REVERSE_SUBTRACT ->
  ~ factors_combined blend ->
  has_blend_separate glad = false ->
  setBlendState glad blend g = Throws fault_separate g (equation_calls glad blend).
Proof.
  intros Hm Hc Hs. blend_cases glad blend; try reflexivity;
    try tauto; try congruence; try (destruct Hm; congruence).
Qed.

Lemma setBlendState_throws_keeps_object glad blend g what g' calls :
  setBlendState glad blend g = Throws what g' calls -> g' = g.
Proof. intros H. blend_cases glad blend; congruence. Qed.

(** ** Float comparisons *)

Lemma SFcompare_antisym (x y : GLfloat) :
  SFcompare y x = CompOpp <$> SFcompare x y.
Proof.
  destruct x as [[]|[]| |[] mx ex], y as [[]|[]| |[] my ey]; try reflexivity; cbn;
    rewrite (Z.compare_antisym ey ex);
    destruct (ey ?= ex)%Z eqn:E; cbn; try reflexivity;
    change (Pos.compare_cont Eq ?a ?b) with (Pos.compare a b);
    rewrite (Pos.compare_antisym mx my); by destruct (mx ?= my)%positive.
Qed.

Lemma SFcompare_refl (x : GLfloat) :
  f32_is_nan x = false -> SFcompare x x = Some Eq.
Proof.
  destruct x as [[]|[]| |[] mx ex]; try done; intros _; cbn;
    rewrite Z.compare_refl;
    change (Pos.compare_cont Eq ?a ?b) with (Pos.compare a b);
    by rewrite Pos.compare_refl.
Qed.

Lemma SFleb_refl x : f32_is_nan x = false -> SFleb x x = true.
Proof. intros Hx. unfold SFleb. by rewrite SFcompare_refl. Qed.

Lemma SFleb_not_nan x y : SFleb x y = true -> f32_is_nan x = false /\ f32_is_nan y = false.
Proof. by destruct x as [[]|[]| |[] ? ?], y as [[]|[]| |[] ? ?]. Qed.

(** On numbers the order is total: [!(y < x)] is [x <= y]. *)
Lemma SFltb_false_SFleb x y :
  f32_is_nan x = false -> f32_is_nan y = false ->
  SFltb y x = false -> SFleb x y = true.
Proof.
  intros Hx Hy. unfold SFltb, SFleb. rewrite (SFcompare_antisym x y).
  destruct (SFcompare x y) as [[]|] eqn:E; cbn; try done.
  by destruct x as [[]|[]| |[] ? ?], y as [[]|[]| |[] ? ?].
Qed.

Lemma SFleb_SFltb_false x y : SFleb x y = true -> SFltb y x = false.
Proof.
  unfold SFltb, SFleb. rewrite (SFcompare_antisym x y).
  by destruct (SFcompare x y) as [[]|].
Qed.

Lemma clamp_bounds (a hi : GLfloat) :
  f32_is_nan a = false ->
  SFleb f32_one hi = true ->
  let r := std_min (std_max a f32_one) hi in
  SFleb f32_one r = true /\ SFleb r hi = true
  /\ (SFleb f32_one a = true -> SFleb a hi = true -> r = a).
Proof.
  intros Ha Hhi r. subst r.
  destruct (SFleb_not_nan _ _ Hhi) as [_ Hn].
  unfold std_min, std_max.
  destruct (SFltb a f32_one) eqn:E1.
  - rewrite (SFleb_SFltb_false _ _ Hhi). repeat split; try done.
    intros H1 _. apply SFleb_SFltb_false in H1. congruence.
  - destruct (SFltb hi a) eqn:E2.
    + repeat split; try done; [by apply SFleb_refl|].
      intros _ H2. apply SFleb_SFltb_false in H2. congruence.
    + repeat split; try done; by apply SFltb_false_SFleb.
Qed.

(** A number below 1.0 is not above a limit of at least 1.0. *)
Lemma below_one_not_above (a hi : GLfloat) :
  SFltb a f32_one = true -> SFleb f32_one hi = true -> SFltb hi a = false.
Proof.
  unfold SFltb, SFleb, SFcompare, f32_one.
  destruct a as [[]|[]| |[] ma ea], hi as [[]|[]| |[] mh eh]; try done.
  change (Pos.compare_cont Eq ?x ?y) with (Pos.compare x y).
  destruct (Z.compare_spec ea (-23)), (Z.compare_spec (-23) eh),
    (Z.compare_spec eh ea); try done; try lia; subst;
    destruct (Pos.compare_spec ma 8388608), (Pos.compare_spec 8388608 mh),
      (Pos.compare_spec mh ma); try done; lia.
Qed.

(** Where the clamp cuts: below 1.0 it gives 1.0, above the limit the
    limit. *)
Lemma clamp_ends (a hi : GLfloat) :
  SFleb f32_one hi = true ->
  (SFltb a f32_one = true -> std_min (std_max a f32_one) hi = f32_one)
  /\ (SFltb hi a = true -> std_min (std_max a f32_one) hi = hi).
Proof.
  intros Hhi. unfold std_min, std_max. split.
  - intros ->. by rewrite (SFleb_SFltb_false _ _ Hhi).
  - intros Habove. destruct (SFltb a f32_one) eqn:E.
    + rewrite (below_one_not_above a hi E Hhi) in Habove. discriminate.
    + by rewrite Habove.
Qed.

(** ** Texture memory counter *)

Lemma updateTextureMemorySize_run bits oldsize newsize g :
  updateTextureMemorySize bits oldsize newsize g =
    Returns tt
      (set_textureMemory
         (to_size_t bits
            (Z.max (int64_add (to_int64 (stats_textureMemory g))
                      (int64_sub (to_int64 newsize) (to_int64 oldsize))) 0)) g) [].
Proof. reflexivity. Qed.

Lemma to_size_t_bounds bits z : 0 <= bits -> is_size_t bits (to_size_t bits z).
Proof.
  intros Hb. unfold is_size_t, to_size_t. apply Z.mod_pos_bound.
  by apply Z.pow_pos_nonneg.
Qed.

(** ** Vendor strings *)

Lemma append_cons c (a b : string) :
  (String c a ++ b)%string = String c (a ++ b)%string.
Proof. reflexivity. Qed.

Lemma prefix_cons c d (n h : string) :
  String.prefix (String c n) (String d h) =
    if Ascii.ascii_dec c d then String.prefix n h else false.
Proof. reflexivity. Qed.

Lemma strstr_unfold (h n : string) :
  strstr h n =
    if String.prefix n h then true
    else match h with
         | EmptyString => false
         | String _ rest => strstr rest n
         end.
Proof. by destruct h. Qed.

Lemma prefix_append (n h : string) :
  String.prefix n h = true <-> exists after, h = (n ++ after)%string.
Proof.
  revert h. induction n as [|c n IH]; intros h.
  - split; [intros _; exists h; reflexivity | intros _; by destruct h].
  - destruct h as [|d h].
    + split; [done | intros [? E]; rewrite append_cons in E; done].
    + rewrite prefix_cons. destruct (Ascii.ascii_dec c d) as [->|Hcd].
      * rewrite IH. split; intros [after E]; exists after;
          rewrite append_cons in *; congruence.
      * split; [done | intros [? E]; rewrite append_cons in E; congruence].
Qed.

Lemma strstr_occurs (h n : string) : strstr h n = true <-> occurs_in n h.
Proof.
  split.
  - induction h as [|c h IH]; rewrite strstr_unfold;
      destruct (String.prefix n _) eqn:E; intros H; try done.
    + apply prefix_append in E as [after ->]. by exists EmptyString, after.
    + apply prefix_append in E as [after ->]. by exists EmptyString, after.
    + destruct (IH H) as (b & a & ->). by exists (String c b), a.
  - intros (b & a & ->). induction b as [|c b IH]; rewrite strstr_unfold.
    + assert (E : String.prefix n (n ++ a)%string = true)
        by (apply prefix_append; eauto).
      change (EmptyString ++ n ++ a)%string with (n ++ a)%string.
      by rewrite E.
    + rewrite append_cons. by destruct (String.prefix n _).
Qed.

Lemma first_match_functional s l v1 v2 :
  first_match s l v1 -> first_match s l v2 -> v1 = v2.
Proof.
  induction 1; inversion 1; subst; try done. by apply IHfirst_match.
Qed.

Ltac vendor_chain :=
  repeat lazymatch goal with
    | |- context [strstr ?s ?n] =>
        let E := fresh "E" in destruct (strstr s n) eqn:E
    end.

Ltac vendor_spec :=
  repeat first
    [ apply fm_none
    | apply fm_here; apply strstr_occurs; assumption
    | apply fm_later; [rewrite <- strstr_occurs; congruence|] ].

Lemma initVendor_classifies vstr g :
  exists v, initVendor vstr g = Returns tt (set_vendor v g) []
    /\ classify_spec vstr v.
Proof.
  destruct vstr as [s|]; cbn; [|by exists VENDOR_UNKNOWN].
  vendor_chain; eexists; (split; [reflexivity|]);
    unfold classify_spec, vendor_fragments; vendor_spec.
Qed.

(** ** Scissor *)

Lemma setScissor_run (canvas : bool) (v : Viewport) (g : OpenGL) :
  setScissor canvas v g =
    Returns tt (set_scissor v g)
      [glScissor (vx v)
         (if canvas then vy v
          else to_int (vh (state_viewport g) - (vy v + vh v)))
         (vw v) (vh v)].
Proof.
  unfold setScissor. destruct canvas; gl_run; [done|]. by rewrite int_sub_add.
Qed.

(** * The claims *)

(** ** Scissor and viewport *)

(** C1.  [setScissor v] makes exactly one driver call.  With a Canvas
    active the driver receives (x, y, w, h) as requested; with none it
    receives (x, H - (y + h), w, h), H being the cached viewport height and
    the difference being computed in [int]s (so it is the mathematical
    H - (y + h) whenever that is an [int]).  Either way the cache then
    holds the requested top-left-origin rectangle, and the cached viewport
    is untouched. *)
Theorem setScissor_flips_without_canvas (v : Viewport) (g : OpenGL) :
  let H := vh (state_viewport g) in
  setScissor true v g =
    Returns tt (set_scissor v g) [glScissor (vx v) (vy v) (vw v) (vh v)]
  /\ setScissor false v g =
       Returns tt (set_scissor v g)
         [glScissor (vx v) (to_int (H - (vy v + vh v))) (vw v) (vh v)]
  /\ (is_int (H - (vy v + vh v)) ->
      setScissor false v g =
        Returns tt (set_scissor v g)
          [glScissor (vx v) (H - (vy v + vh v)) (vw v) (vh v)])
  /\ state_scissor (set_scissor v g) = v
  /\ state_viewport (set_scissor v g) = state_viewport g.
Proof.
  intros H. subst H.
  pose proof (setScissor_run true v g) as Hc.
  pose proof (setScissor_run false v g) as Hn.
  repeat split; try done.
  intros Hi. by rewrite Hn, to_int_id.
Qed.

Lemma setScissor_flips_without_canvas_witness :
  is_int (600 - (20 + 50))
  /\ setScissor false (mkViewport 10 20 100 50) gl0 =
       Returns tt (set_scissor (mkViewport 10 20 100 50) gl0)
         [glScissor 10 530 100 50].
Proof.
  assert (Hi : is_int (600 - (20 + 50))) by (unfold is_int, INT_MIN, INT_MAX; lia).
  split; [exact Hi|].
  destruct (setScissor_flips_without_canvas (mkViewport 10 20 100 50) gl0)
    as (_ & _ & Hflip & _).
  exact (Hflip Hi).
Defined.

(** C6.  [setViewport v] calls [glViewport] with [v], caches [v] as the
    viewport, keeps the cached scissor rectangle, and issues the scissor
    call again for that rectangle: it is the call [setScissor] makes once
    the new viewport is cached, so without a Canvas its vertical
    coordinate is taken from the new height [vh v]. *)
Theorem setViewport_reapplies_scissor (canvas : bool) (v : Viewport) (g : OpenGL) :
  let s := state_scissor g in
  let y := if canvas then vy s else to_int (vh v - (vy s + vh s)) in
  setViewport canvas v g =
    Returns tt (set_viewport v g)
      [glViewport (vx v) (vy v) (vw v) (vh v); glScissor (vx s) y (vw s) (vh s)]
  /\ state_viewport (set_viewport v g) = v
  /\ state_scissor (set_viewport v g) = state_scissor g
  /\ setScissor canvas s (set_viewport v g) =
       Returns tt (set_viewport v g) [glScissor (vx s) y (vw s) (vh s)]
  /\ (canvas = false -> is_int (vh v - (vy s + vh s)) ->
      y = vh v - (vy s + vh s)).
Proof.
  intros s y. subst s y.
  pose proof (setScissor_run canvas (state_scissor g) (set_viewport v g)) as Hs.
  change (set_scissor (state_scissor g) (set_viewport v g))
    with (set_scissor (state_scissor (set_viewport v g)) (set_viewport v g)) in Hs.
  rewrite set_scissor_same in Hs.
  change (vh (state_viewport (set_viewport v g))) with (vh v) in Hs.
  repeat split; try done.
  - unfold setViewport. gl_run.
    change (state_scissor g) with (state_scissor (set_viewport v g)) at 1.
    fold (set_viewport v g). cbn [state_scissor set_viewport].
    fold (set_viewport v g). rewrite Hs. reflexivity.
  - intros -> Hi. by apply to_int_id.
Qed.

Lemma setViewport_reapplies_scissor_witness :
  setViewport false (mkViewport 0 0 1024 768) gl0 =
    Returns tt (set_viewport (mkViewport 0 0 1024 768) gl0)
      [glViewport 0 0 1024 768; glScissor 0 168 800 600].
Proof.
  destruct (setViewport_reapplies_scissor false (mkViewport 0 0 1024 768) gl0)
    as (Hrun & _).
  exact Hrun.
Defined.

(** ** Texture binding *)

(** C2.  With [bound] the handle cached for the current texture unit,
    [bindTexture t] makes exactly one driver call, [glBindTexture] of [t],
    if and only if [t] differs from [bound], and makes none otherwise;
    afterwards the cache holds [t] for the current unit, and when [t] was
    already bound the whole object is unchanged. *)
Theorem bindTexture_call_iff_differs (t bound : GLuint) (g : OpenGL) :
  vec_at (state_textureUnits g) (state_curTextureUnit g) = Some bound ->
  exists g' calls,
    bindTexture t g = Returns tt g' calls
    /\ (calls = [glBindTexture GL_TEXTURE_2D t] <-> t <> bound)
    /\ (calls = [] <-> t = bound)
    /\ vec_at (state_textureUnits g') (state_curTextureUnit g') = Some t
    /\ state_curTextureUnit g' = state_curTextureUnit g
    /\ (t = bound -> g' = g).
Proof.
  intros Hb. destruct (decide (t = bound)) as [->|Hne].
  - exists g, []. rewrite (bindTexture_same g bound Hb).
    repeat split; try done; tauto.
  - eexists _, _. rewrite (bindTexture_other g bound t Hb Hne).
    repeat split; try done.
    cbn. by destruct (vec_store_at _ _ t _ Hb) as [_ ->].
Qed.

Lemma bindTexture_call_iff_differs_witness :
  exists g' calls,
    bindTexture 7 gl0 = Returns tt g' calls
    /\ (calls = [glBindTexture GL_TEXTURE_2D 7] <-> 7 <> 0)
    /\ (calls = [] <-> 7 = 0)
    /\ vec_at (state_textureUnits g') (state_curTextureUnit g') = Some 7
    /\ state_curTextureUnit g' = state_curTextureUnit gl0
    /\ (7 = 0 -> g' = gl0).
Proof.
  apply (bindTexture_call_iff_differs 7 0 gl0). reflexivity.
Defined.

(** ** Matrix stacks *)

(** C3, as stated, fails: nothing stops [popTransform] from removing the
    last entry.  Right after [initMatrices] a single pop returns normally
    and leaves the transform stack empty. *)
Lemma pop_empties_initial_stack :
  (exists g, (initMatrices;; stack_ops [Pop]) gl0 = Returns tt g []
             /\ matrices_transform g = [])
  /\ ~ (forall ops g0 g,
          (initMatrices;; stack_ops ops) g0 = Returns tt g [] ->
          (1 <= length (matrices_transform g))%nat).
Proof.
  assert (E : (initMatrices;; stack_ops [Pop]) gl0 =
              Returns tt (set_transform [] gl0) []) by reflexivity.
  split.
  - eexists. split; [exact E | reflexivity].
  - intros H. specialize (H [Pop] gl0 _ E). cbn in H. lia.
Qed.

(** C3, amended.  [initMatrices] leaves one identity matrix on each stack.
    From there, every sequence of pushes and pops in which each pop undoes
    an earlier push runs to completion without a driver call and leaves
    the transform stack with at least one entry and the projection stack
    with its single entry.  On a stack [t ++ [m]], a push gives
    [t ++ [m; m]] (the top entry duplicated) and a pop gives [t] (the top
    entry removed and nothing else). *)
Theorem matrix_stacks_nonempty_when_nested (ops : list StackOp) (g0 : OpenGL) :
  nested 0 ops = true ->
  exists g1 g2,
    initMatrices g0 = Returns tt g1 []
    /\ matrices_transform g1 = [Matrix_new]
    /\ matrices_projection g1 = [Matrix_new]
    /\ stack_ops ops g1 = Returns tt g2 []
    /\ (1 <= length (matrices_transform g2))%nat
    /\ matrices_projection g2 = [Matrix_new]
    /\ (forall g t m, matrices_transform g = t ++ [m] ->
          pushTransform g = Returns tt (set_transform (t ++ [m; m]) g) []
          /\ popTransform g = Returns tt (set_transform t g) []).
Proof.
  intros Hn.
  set (g1 := set_projection [Matrix_new] (set_transform [Matrix_new] g0)).
  destruct (nested_stack_ops ops 0 g1) as (g2 & Hrun & Hlen & Hproj); try done.
  exists g1, g2. rewrite initMatrices_run. repeat split; try done.
  - rewrite (pushTransform_snoc g t m H). by rewrite <- app_assoc.
  - by apply (popTransform_snoc g t m).
Qed.

Lemma matrix_stacks_nonempty_when_nested_witness :
  exists g1 g2,
    initMatrices gl0 = Returns tt g1 []
    /\ matrices_transform g1 = [Matrix_new]
    /\ matrices_projection g1 = [Matrix_new]
    /\ stack_ops [Push; Push; Pop; Push; Pop; Pop] g1 = Returns tt g2 []
    /\ (1 <= length (matrices_transform g2))%nat
    /\ matrices_projection g2 = [Matrix_new]
    /\ (forall g t m, matrices_transform g = t ++ [m] ->
          pushTransform g = Returns tt (set_transform (t ++ [m; m]) g) []
          /\ popTransform g = Returns tt (set_transform t g) []).
Proof.
  apply (matrix_stacks_nonempty_when_nested [Push; Push; Pop; Push; Pop; Pop] gl0).
  reflexivity.
Defined.

(** C7.  On a non-empty transform stack, N pushes followed by N pops run
    to completion and give back the object they started from; so the top
    entry, which [getTransform] returns, is the one from before the first
    push. *)
Theorem pushes_then_pops_restore_top (n : nat) (g : OpenGL) :
  matrices_transform g <> [] ->
  exists g' top,
    stack_ops (replicate n Push ++ replicate n Pop) g = Returns tt g' []
    /\ getTransform g = Returns top g []
    /\ getTransform g' = Returns top g' []
    /\ g' = g.
Proof.
  intros Hg. destruct (vec_back_is_Some _ Hg) as [top Htop].
  exists g, top.
  assert (Hget : getTransform g = Returns top g []).
  { unfold getTransform. gl_run. rewrite Htop. reflexivity. }
  repeat split; try done.
  pose proof (pushes_then_pops n g [] Hg) as H.
  by rewrite app_nil_r in H.
Qed.

Lemma pushes_then_pops_restore_top_witness :
  exists g' top,
    stack_ops (replicate 3 Push ++ replicate 3 Pop) gl0 = Returns tt g' []
    /\ getTransform gl0 = Returns top gl0 []
    /\ getTransform g' = Returns top g' []
    /\ g' = gl0.
Proof.
  apply (pushes_then_pops_restore_top 3 gl0). discriminate.
Defined.

(** ** Blend state *)

(** C4, as stated, fails: on a driver with no blend-equation entry point
    only [GL_FUNC_REVERSE_SUBTRACT] is refused.  [GL_MIN] is not the
    default equation either, yet the request returns normally, with the
    combined factor call and no equation call, and [GL_MIN] is cached. *)
Lemma blend_min_without_equation_is_accepted :
  let blend := mkBlendState GL_ONE GL_ONE GL_ZERO GL_ZERO GL_MIN in
  has_blend_equation glad_legacy = false
  /\ func blend <> GL_FUNC_ADD
  /\ setBlendState glad_legacy blend gl0 =
       Returns tt (set_blend blend gl0) [glBlendFunc GL_ONE GL_ZERO]
  /\ ~ (forall glad b g,
          has_blend_equation glad = false -> func b <> GL_FUNC_ADD ->
          exists what g' calls, setBlendState glad b g = Throws what g' calls).
Proof.
  intros blend. repeat split; try done.
  intros H.
  destruct (H glad_legacy blend gl0) as (what & g' & calls & E); done.
Qed.

(** C4, amended.  A [GL_FUNC_REVERSE_SUBTRACT] equation requested on a
    driver with no equation entry point (neither core nor extension)
    raises the fault before any driver call.  In every other case the
    equation call, if the driver has one, is followed by: the combined
    [glBlendFunc] when srcRGB = srcA and dstRGB = dstA; otherwise the
    separated call (core form, else the extension form) when the driver
    has it; otherwise the fault.  A request that returns is cached. *)
Theorem setBlendState_call_forms (glad : Glad) (blend : BlendState) (g : OpenGL) :
  (has_blend_equation glad = false ->
   func blend = GL_FUNC_REVERSE_SUBTRACT ->
   setBlendState glad blend g = Throws fault_subtract g [])
  /\ (has_blend_equation glad = true \/ func blend <> GL_FUNC_REVERSE_SUBTRACT ->
      (factors_combined blend ->
       setBlendState glad blend g =
         Returns tt (set_blend blend g)
           (equation_calls glad blend ++ [glBlendFunc (srcRGB blend) (dstRGB blend)]))
      /\ (~ factors_combined blend -> has_blend_separate glad = true ->
          setBlendState glad blend g =
            Returns tt (set_blend blend g)
              (equation_calls glad blend ++ [separate_call glad blend]))
      /\ (~ factors_combined blend -> has_blend_separate glad = false ->
          setBlendState glad blend g =
            Throws fault_separate g (equation_calls glad blend))).
Proof.
  split; [apply setBlendState_equation_fault|].
  intros Hm. repeat split.
  - by apply setBlendState_combined.
  - by apply setBlendState_separate.
  - by apply setBlendState_separate_fault.
Qed.

Lemma setBlendState_call_forms_witness :
  setBlendState glad_legacy
    (mkBlendState GL_ONE GL_ONE GL_ZERO GL_ZERO GL_FUNC_REVERSE_SUBTRACT) gl0 =
    Throws fault_subtract gl0 []
  /\ setBlendState glad_modern (mkBlendState GL_ONE GL_ZERO GL_ZERO GL_ZERO GL_FUNC_ADD) gl0 =
       Returns tt (set_blend (mkBlendState GL_ONE GL_ZERO GL_ZERO GL_ZERO GL_FUNC_ADD) gl0)
         [glBlendEquation GL_FUNC_ADD; glBlendFuncSeparate GL_ONE GL_ZERO GL_ZERO GL_ZERO]
  /\ setBlendState glad_legacy (mkBlendState GL_ONE GL_ZERO GL_ZERO GL_ZERO GL_FUNC_ADD) gl0 =
       Throws fault_separate gl0 [].
Proof.
  split; [|split].
  - apply (setBlendState_call_forms glad_legacy
             (mkBlendState GL_ONE GL_ONE GL_ZERO GL_ZERO GL_FUNC_REVERSE_SUBTRACT) gl0);
      reflexivity.
  - apply (setBlendState_call_forms glad_modern
             (mkBlendState GL_ONE GL_ZERO GL_ZERO GL_ZERO GL_FUNC_ADD) gl0).
    + left. reflexivity.
    + unfold factors_combined. cbn. intros [H _]. discriminate H.
    + reflexivity.
  - apply (setBlendState_call_forms glad_legacy
             (mkBlendState GL_ONE GL_ZERO GL_ZERO GL_ZERO GL_FUNC_ADD) gl0).
    + right. discriminate.
    + unfold factors_combined. cbn. intros [H _]. discriminate H.
    + reflexivity.
Defined.

(** C9.  When [setBlendState] leaves by a fault, it is one of the two
    capability faults, raised for the reason its text names, and the
    object is the one from before the call: [getBlendState] returns the
    blend state it returned before. *)
Theorem setBlendState_fault_keeps_cache
    (glad : Glad) (blend : BlendState) (g g' : OpenGL)
    (what : string) (calls : list GLCall) :
  setBlendState glad blend g = Throws what g' calls ->
  getBlendState g' = Returns (state_blend g) g' []
  /\ getBlendState g = Returns (state_blend g) g []
  /\ g' = g
  /\ ((what = fault_subtract /\ has_blend_equation glad = false
       /\ func blend = GL_FUNC_REVERSE_SUBTRACT)
      \/ (what = fault_separate /\ has_blend_separate glad = false
          /\ ~ factors_combined blend)).
Proof.
  intros H.
  assert (g' = g) as -> by (by eapply setBlendState_throws_keeps_object).
  repeat split; try done.
  destruct (has_blend_equation glad) eqn:Heq;
    [|destruct (decide (func blend = GL_FUNC_REVERSE_SUBTRACT)) as [Hf|Hf]].
  2:{ rewrite setBlendState_equation_fault in H by done.
      injection H as <- _. by left. }
  all: assert (Hm : true = true \/ func blend <> GL_FUNC_REVERSE_SUBTRACT)
         by (first [by left | by right]).
  all: try (assert (Hm' : has_blend_equation glad = true
                          \/ func blend <> GL_FUNC_REVERSE_SUBTRACT)
              by (rewrite Heq; first [by left | by right])).
  all: destruct (decide (factors_combined blend)) as [Hc|Hc];
    [ rewrite setBlendState_combined in H by done; discriminate |].
  all: destruct (has_blend_separate glad) eqn:Hs;
    [ rewrite setBlendState_separate in H by done; discriminate |].
  all: rewrite setBlendState_separate_fault in H by done;
    injection H as <- _; by right.
Qed.

Lemma setBlendState_fault_keeps_cache_witness :
  getBlendState gl0 = Returns blend_replace gl0 []
  /\ setBlendState glad_legacy (mkBlendState GL_ONE GL_ZERO GL_ZERO GL_ZERO GL_FUNC_ADD) gl0 =
       Throws fault_separate gl0 [].
Proof.
  assert (E : setBlendState glad_legacy
                (mkBlendState GL_ONE GL_ZERO GL_ZERO GL_ZERO GL_FUNC_ADD) gl0 =
              Throws fault_separate gl0 []) by reflexivity.
  split; [|exact E].
  destruct (setBlendState_fault_keeps_cache _ _ _ _ _ _ E) as (Hget & _).
  exact Hget.
Defined.

(** ** Texture filter *)

(** C5, as stated, fails: without the anisotropic-filtering extension the
    clamp is skipped together with the driver call.  A request for 16x on
    a driver whose limit is 1.0 returns 16.0, which lies outside
    [1.0, maxAnisotropy] and was never applied.  (With the extension, a
    request that is not a number is not clamped either: every comparison
    of [std::max] and [std::min] with it is false.) *)
Lemma unclamped_anisotropy_without_extension :
  GLAD_EXT_texture_filter_anisotropic glad_legacy = false
  /\ maxAnisotropy gl0 = f32_one
  /\ setTextureFilter glad_legacy (filter_linear f32_16) gl0 =
       Returns (f32_16, filter_linear f32_16) gl0
         [glTexParameteri GL_TEXTURE_2D GL_TEXTURE_MIN_FILTER GL_LINEAR;
          glTexParameteri GL_TEXTURE_2D GL_TEXTURE_MAG_FILTER GL_LINEAR]
  /\ SFleb f32_16 (maxAnisotropy gl0) = false
  /\ setTextureFilter glad_modern (filter_linear S754_nan) gl_aniso16 =
       Returns (S754_nan, filter_linear S754_nan) gl_aniso16
         [glTexParameteri GL_TEXTURE_2D GL_TEXTURE_MIN_FILTER GL_LINEAR;
          glTexParameteri GL_TEXTURE_2D GL_TEXTURE_MAG_FILTER GL_LINEAR;
          glTexParameterf GL_TEXTURE_2D GL_TEXTURE_MAX_ANISOTROPY_EXT S754_nan].
Proof. repeat split. Qed.

(** C5, amended.  With the anisotropic-filtering extension present, a
    request that is a number, and a limit [maxAnisotropy] of at least 1.0:
    the value [r] passed to the driver (after the min- and mag-filter
    calls) is the request clamped into [1.0, maxAnisotropy], that is 1.0
    for a request below 1.0, [maxAnisotropy] for a request above it and
    the request itself otherwise; [r] is written back to the filter and
    returned.  Without the extension only the min- and mag-filter calls
    are made: no anisotropy reaches the driver. *)
Theorem setTextureFilter_clamps_with_extension (glad : Glad) (f : Filter) (g : OpenGL) :
  (GLAD_EXT_texture_filter_anisotropic glad = true ->
   f32_is_nan (f_anisotropy f) = false ->
   SFleb f32_one (maxAnisotropy g) = true ->
   exists r,
     setTextureFilter glad f g =
       Returns (r, mkFilter (f_min f) (f_mag f) (f_mipmap f) r) g
         [glTexParameteri GL_TEXTURE_2D GL_TEXTURE_MIN_FILTER (filter_gmin f);
          glTexParameteri GL_TEXTURE_2D GL_TEXTURE_MAG_FILTER (filter_gmag f);
          glTexParameterf GL_TEXTURE_2D GL_TEXTURE_MAX_ANISOTROPY_EXT r]
     /\ SFleb f32_one r = true
     /\ SFleb r (maxAnisotropy g) = true
     /\ (SFleb f32_one (f_anisotropy f) = true ->
         SFleb (f_anisotropy f) (maxAnisotropy g) = true ->
         r = f_anisotropy f)
     /\ (SFltb (f_anisotropy f) f32_one = true -> r = f32_one)
     /\ (SFltb (maxAnisotropy g) (f_anisotropy f) = true -> r = maxAnisotropy g))
  /\ (GLAD_EXT_texture_filter_anisotropic glad = false ->
      exists r f',
        setTextureFilter glad f g =
          Returns (r, f') g
            [glTexParameteri GL_TEXTURE_2D GL_TEXTURE_MIN_FILTER (filter_gmin f);
             glTexParameteri GL_TEXTURE_2D GL_TEXTURE_MAG_FILTER (filter_gmag f)]).
Proof.
  split.
  - intros Hext Hnan Hmax.
    exists (std_min (std_max (f_anisotropy f) f32_one) (maxAnisotropy g)).
    split.
    { unfold setTextureFilter. gl_run. rewrite Hext. reflexivity. }
    destruct (clamp_bounds (f_anisotropy f) (maxAnisotropy g) Hnan Hmax)
      as (Hlo & Hhi & Hin).
    destruct (clamp_ends (f_anisotropy f) (maxAnisotropy g) Hmax)
      as (Hbelow & Habove).
    repeat split; assumption.
  - intros Hext. exists (f_anisotropy f), f.
    unfold setTextureFilter. gl_run. rewrite Hext. reflexivity.
Qed.

Lemma setTextureFilter_clamps_with_extension_witness :
  setTextureFilter glad_modern (filter_linear f32_64) gl_aniso16 =
    Returns (f32_16, filter_linear f32_16) gl_aniso16
      [glTexParameteri GL_TEXTURE_2D GL_TEXTURE_MIN_FILTER GL_LINEAR;
       glTexParameteri GL_TEXTURE_2D GL_TEXTURE_MAG_FILTER GL_LINEAR;
       glTexParameterf GL_TEXTURE_2D GL_TEXTURE_MAX_ANISOTROPY_EXT f32_16]
  /\ setTextureFilter glad_modern (filter_linear f32_zero) gl_aniso16 =
       Returns (f32_one, filter_linear f32_one) gl_aniso16
         [glTexParameteri GL_TEXTURE_2D GL_TEXTURE_MIN_FILTER GL_LINEAR;
          glTexParameteri GL_TEXTURE_2D GL_TEXTURE_MAG_FILTER GL_LINEAR;
          glTexParameterf GL_TEXTURE_2D GL_TEXTURE_MAX_ANISOTROPY_EXT f32_one].
Proof.
  split.
  - destruct (setTextureFilter_clamps_with_extension glad_modern
                (filter_linear f32_64) gl_aniso16) as [Hext _].
    destruct Hext as (r & Hrun & _ & _ & _ & _ & Habove);
      [reflexivity | reflexivity | reflexivity |].
    rewrite Hrun, (Habove eq_refl). reflexivity.
  - destruct (setTextureFilter_clamps_with_extension glad_modern
                (filter_linear f32_zero) gl_aniso16) as [Hext _].
    destruct Hext as (r & Hrun & _ & _ & _ & Hbelow & _);
      [reflexivity | reflexivity | reflexivity |].
    rewrite Hrun, (Hbelow eq_refl). reflexivity.
Defined.

(** ** Texture memory counter *)

(** C10, as stated, fails where [size_t] has 64 bits: the cast to [int64]
    turns an [oldsize] of 2^63 or more into a negative number.  With the
    counter at 10, releasing 2^64 - 1 bytes raises it to 11. *)
Lemma huge_oldsize_raises_counter :
  let g := set_textureMemory 10 gl0 in
  is_size_t 64 (2 ^ 64 - 1)
  /\ (2 ^ 64 - 1) - 0 > stats_textureMemory g
  /\ updateTextureMemorySize 64 (2 ^ 64 - 1) 0 g =
       Returns tt (set_textureMemory 11 g) [].
Proof.
  intros g. split; [|split].
  - unfold is_size_t. lia.
  - cbn. lia.
  - reflexivity.
Qed.

(** C10, amended.  Whatever the sizes, the counter is a [size_t] again
    after [updateTextureMemorySize], so it is not negative.  When
    [oldsize] is below 2^63 (the cast to [int64] keeps it) and the
    decrease [oldsize - newsize] exceeds the counter, the counter becomes
    zero; and as long as counter and sizes are below 2^62 the new counter
    is the larger of counter + newsize - oldsize and zero, cut to
    [size_t]. *)
Theorem updateTextureMemorySize_saturates
    (bits oldsize newsize : Z) (g : OpenGL) :
  0 <= bits ->
  exists g',
    updateTextureMemorySize bits oldsize newsize g = Returns tt g' []
    /\ is_size_t bits (stats_textureMemory g')
    /\ (0 <= stats_textureMemory g -> 0 <= newsize -> oldsize < 2 ^ 63 ->
        oldsize - newsize > stats_textureMemory g ->
        stats_textureMemory g' = 0)
    /\ (0 <= stats_textureMemory g < 2 ^ 62 ->
        0 <= newsize < 2 ^ 62 -> 0 <= oldsize < 2 ^ 62 ->
        stats_textureMemory g' =
          to_size_t bits (Z.max (stats_textureMemory g + newsize - oldsize) 0)).
Proof.
  intros Hbits. eexists. rewrite updateTextureMemorySize_run.
  split; [reflexivity|]. cbn [stats_textureMemory set_textureMemory].
  split; [by apply to_size_t_bounds|]. split.
  - intros Htm Hnew Hold Hdec. unfold int64_add, int64_sub.
    rewrite (to_int64_id (stats_textureMemory g)) by (unfold is_int64; lia).
    rewrite (to_int64_id newsize) by (unfold is_int64; lia).
    rewrite (to_int64_id oldsize) by (unfold is_int64; lia).
    rewrite (to_int64_id (newsize - oldsize)) by (unfold is_int64; lia).
    rewrite to_int64_id by (unfold is_int64; lia).
    rewrite Z.max_r by lia. unfold to_size_t. apply Z.mod_0_l.
    apply Z.pow_nonzero; lia.
  - intros Htm Hnew Hold. unfold int64_add, int64_sub.
    rewrite (to_int64_id (stats_textureMemory g)) by (unfold is_int64; lia).
    rewrite (to_int64_id newsize) by (unfold is_int64; lia).
    rewrite (to_int64_id oldsize) by (unfold is_int64; lia).
    rewrite (to_int64_id (newsize - oldsize)) by (unfold is_int64; lia).
    rewrite to_int64_id by (unfold is_int64; lia).
    do 2 f_equal. lia.
Qed.

Lemma updateTextureMemorySize_saturates_witness :
  exists g',
    updateTextureMemorySize 64 4096 1024 (set_textureMemory 2048 gl0)
      = Returns tt g' []
    /\ stats_textureMemory g' = 0.
Proof.
  destruct (updateTextureMemorySize_saturates 64 4096 1024 (set_textureMemory 2048 gl0))
    as (g' & Hrun & _ & Hzero & _); [lia|].
  exists g'. split; [exact Hrun|].
  apply Hzero; cbn; lia.
Defined.

(** ** Vendor detection *)

(** C8.  [initVendor] never fails and makes no driver call; the vendor it
    stores, which [getVendor] then returns, is the one the priority-ordered
    fragment list assigns: the first fragment that occurs in the string,
    character for character, decides, no fragment means unknown, and so
    does an absent string; nothing but the vendor changes.  The four
    sample strings classify to NVIDIA, Intel, ATI/AMD and unknown; letter
    case matters, and on a string holding two fragments the earlier one in
    the list wins. *)
Theorem initVendor_first_fragment_wins :
  (forall vstr, exists v,
      detects vstr v
      /\ classify_spec vstr v
      /\ (forall v', classify_spec vstr v' -> v' = v))
  /\ detects (Some "NVIDIA Corporation") VENDOR_NVIDIA
  /\ detects (Some "Intel Open Source Technology Center") VENDOR_INTEL
  /\ detects (Some "ATI Technologies Inc.") VENDOR_ATI_AMD
  /\ detects (Some "unknown vendor xyz") VENDOR_UNKNOWN
  /\ detects None VENDOR_UNKNOWN
  /\ detects (Some "nvidia corporation") VENDOR_UNKNOWN
  /\ detects (Some "Intel on NVIDIA") VENDOR_NVIDIA.
Proof.
  assert (Hstore : forall vstr v,
            (forall g, initVendor vstr g = Returns tt (set_vendor v g) []) ->
            detects vstr v).
  { intros vstr v Hrun g. exists (set_vendor v g).
    split; [apply Hrun|]. split; [reflexivity|]. split; [|reflexivity].
    unfold mbind, GL_bind, gl_bind. rewrite Hrun. reflexivity. }
  split; [|repeat split; apply Hstore; reflexivity].
  intros vstr.
  destruct (initVendor_classifies vstr gl0) as (v & _ & Hspec).
  exists v. split; [|split; [exact Hspec|]].
  - apply Hstore. intros g.
    destruct (initVendor_classifies vstr g) as (v' & Hrun & Hspec').
    assert (v' = v) as ->; [|exact Hrun].
    destruct vstr as [s|]; cbn in *; [|congruence].
    by eapply first_match_functional.
  - intros v' Hv'. destruct vstr as [s|]; cbn in *; [|congruence].
    by eapply first_match_functional.
Qed.

(** * Further properties of the object *)

(** ** Texture units *)

Lemma set_curTextureUnit_same g : set_curTextureUnit (state_curTextureUnit g) g = g.
Proof. by destruct g. Qed.

Lemma setTextureUnit_invalid u g :
  ~ unit_valid g u -> setTextureUnit u g = Throws (fault_unit_index_d u) g [].
Proof.
  unfold unit_valid. intros Hu. unfold setTextureUnit. gl_run.
  rewrite bool_decide_true by lia. reflexivity.
Qed.

Lemma setTextureUnit_current g :
  unit_in_range g -> setTextureUnit (state_curTextureUnit g) g = Returns tt g [].
Proof.
  unfold unit_in_range. intros Hu. unfold setTextureUnit. gl_run.
  rewrite bool_decide_false by lia. gl_run.
  rewrite bool_decide_false by tauto. gl_run.
  by rewrite set_curTextureUnit_same.
Qed.

Lemma setTextureUnit_switch u g :
  unit_valid g u -> u <> state_curTextureUnit g ->
  (1 < Z.of_nat (length (state_textureUnits g))) ->
  setTextureUnit u g =
    Returns tt (set_curTextureUnit u g) [glActiveTexture (GL_TEXTURE0 + u)].
Proof.
  unfold unit_valid. intros Hu Hne Hlen. unfold setTextureUnit. gl_run.
  rewrite bool_decide_false by lia. gl_run.
  rewrite bool_decide_true by done. rewrite bool_decide_true by done.
  reflexivity.
Qed.

Lemma setTextureUnit_single u g :
  unit_valid g u -> u <> state_curTextureUnit g ->
  ~ (1 < Z.of_nat (length (state_textureUnits g))) ->
  setTextureUnit u g = Throws fault_multitexturing g [].
Proof.
  unfold unit_valid. intros Hu Hne Hlen. unfold setTextureUnit. gl_run.
  rewrite bool_decide_false by lia. gl_run.
  rewrite bool_decide_true by done. rewrite bool_decide_false by done.
  reflexivity.
Qed.

(** Two distinct units in range: the driver has more than one. *)
Lemma two_units g u :
  unit_in_range g -> unit_valid g u -> u <> state_curTextureUnit g ->
  1 < Z.of_nat (length (state_textureUnits g)).
Proof. unfold unit_in_range, unit_valid. lia. Qed.

Lemma setTextureUnit_valid u g :
  unit_in_range g -> unit_valid g u ->
  setTextureUnit u g = Returns tt (set_curTextureUnit u g) (switch_calls g u).
Proof.
  intros Hg Hu. unfold switch_calls. case_bool_decide as E.
  - subst u. rewrite setTextureUnit_current by done.
    by rewrite set_curTextureUnit_same.
  - apply setTextureUnit_switch; try done. by eapply two_units.
Qed.

Lemma unit_valid_bound g u :
  unit_valid g u -> exists bound, vec_at (state_textureUnits g) u = Some bound.
Proof.
  intros [Hlo Hhi]. unfold vec_at. rewrite decide_True by done.
  destruct (lookup_lt_is_Some_2 (state_textureUnits g) (Z.to_nat u)) as [b Hb];
    [lia|]. by exists b.
Qed.

Lemma vec_at_valid g u bound :
  vec_at (state_textureUnits g) u = Some bound -> unit_valid g u.
Proof. intros [H _]%vec_at_Some. exact H. Qed.

Lemma bindTextureToUnit_invalid t u r g :
  ~ unit_valid g u -> bindTextureToUnit t u r g = Throws fault_unit_index g [].
Proof.
  unfold unit_valid. intros Hu. unfold bindTextureToUnit. gl_run.
  rewrite bool_decide_true by lia. reflexivity.
Qed.

Lemma bindTextureToUnit_same u r g bound :
  vec_at (state_textureUnits g) u = Some bound ->
  bindTextureToUnit bound u r g = Returns tt g [].
Proof.
  intros Hb. pose proof (vec_at_valid _ _ _ Hb) as Hu. unfold unit_valid in Hu.
  unfold bindTextureToUnit. gl_run.
  rewrite bool_decide_false by lia. gl_run. rewrite Hb. gl_run.
  rewrite bool_decide_false by tauto. reflexivity.
Qed.

Local Arguments setTextureUnit : simpl never.

Lemma bindTextureToUnit_other t u r g bound :
  unit_in_range g ->
  vec_at (state_textureUnits g) u = Some bound ->
  t <> bound ->
  let units := <[Z.to_nat u := t]> (state_textureUnits g) in
  bindTextureToUnit t u r g =
    Returns tt
      (if r then set_textureUnits units g
       else set_textureUnits units (set_curTextureUnit u g))
      (switch_calls g u ++ [glBindTexture GL_TEXTURE_2D t]
       ++ (if r then switch_calls (set_curTextureUnit u g) (state_curTextureUnit g)
           else [])).
Proof.
  intros Hg Hb Ht units. pose proof (vec_at_valid _ _ _ Hb) as Hu.
  assert (Hu' := Hu). unfold unit_valid in Hu'.
  unfold bindTextureToUnit. gl_run.
  rewrite bool_decide_false by lia. gl_run. rewrite Hb. gl_run.
  rewrite bool_decide_true by done.
  rewrite (setTextureUnit_valid u g Hg Hu). gl_run.
  destruct (vec_store_at _ _ t _ Hb) as [-> _]. gl_run.
  destruct r; gl_run.
  - rewrite (setTextureUnit_valid (state_curTextureUnit g)).
    + reflexivity.
    + unfold unit_in_range. cbn. rewrite length_insert. lia.
    + unfold unit_valid, unit_in_range in *. cbn. by rewrite length_insert.
  - reflexivity.
Qed.

(** ** The cache and the driver stay in step *)

Lemma tex_calls_app c1 c2 d : tex_calls (c1 ++ c2) d = tex_calls c2 (tex_calls c1 d).
Proof. unfold tex_calls. apply fold_left_app. Qed.

Lemma switch_in_step g d u :
  in_step g d ->
  in_step (set_curTextureUnit u g) (tex_calls (switch_calls g u) d).
Proof.
  intros [Hb Ha]. unfold switch_calls. case_bool_decide as E; cbn.
  - subst u. by split.
  - split; [done|]. cbn. unfold GL_TEXTURE0. lia.
Qed.

Lemma bind_in_step g d t :
  in_step g d ->
  in_step
    (set_textureUnits (<[Z.to_nat (state_curTextureUnit g) := t]> (state_textureUnits g)) g)
    (tex_call (glBindTexture GL_TEXTURE_2D t) d).
Proof.
  intros [Hb Ha]. cbn. rewrite bool_decide_true by done.
  split; cbn; [by rewrite Hb, Ha | done].
Qed.

Lemma unit_in_range_set_cur g u : unit_valid g u -> unit_in_range (set_curTextureUnit u g).
Proof. by destruct g. Qed.

Lemma unit_in_range_set_units g i t :
  unit_in_range g -> unit_in_range (set_textureUnits (<[i := t]> (state_textureUnits g)) g).
Proof. unfold unit_in_range. cbn. by rewrite length_insert. Qed.

Lemma tex_op_in_step o g d :
  unit_in_range g -> in_step g d -> steps_with d (tex_op o g).
Proof.
  intros Hg Hd. destruct o as [u|t|t u r]; cbn [tex_op].
  - destruct (decide (unit_valid g u)) as [Hu|Hu].
    + rewrite setTextureUnit_valid by done. split.
      * by apply switch_in_step.
      * by apply unit_in_range_set_cur.
    + rewrite setTextureUnit_invalid by done. by split.
  - destruct (unit_in_range_bound g Hg) as [bound Hb].
    destruct (decide (t = bound)) as [->|Hne].
    + rewrite (bindTexture_same g bound Hb). by split.
    + rewrite (bindTexture_other g bound t Hb Hne). split.
      * by apply bind_in_step.
      * by apply unit_in_range_set_units.
  - destruct (decide (unit_valid g u)) as [Hu|Hu].
    2:{ rewrite bindTextureToUnit_invalid by done. by split. }
    destruct (unit_valid_bound g u Hu) as [bound Hb].
    destruct (decide (t = bound)) as [->|Hne].
    { rewrite (bindTextureToUnit_same u r g bound Hb). by split. }
    rewrite (bindTextureToUnit_other t u r g bound Hg Hb Hne). cbn zeta.
    pose proof (switch_in_step g d u Hd) as H1.
    pose proof (bind_in_step _ _ t H1) as H2.
    cbn [steps_with]. rewrite !tex_calls_app. destruct r.
    + split.
      * apply (switch_in_step _ _ (state_curTextureUnit g)) in H2. exact H2.
      * by apply unit_in_range_set_units.
    + split; [exact H2|].
      apply (unit_in_range_set_units (set_curTextureUnit u g)).
      by apply unit_in_range_set_cur.
Qed.

(** X1.  On a cache whose current unit is in range, [setTextureUnit u]
    has two outcomes only.  An index inside the vector succeeds: the
    current unit becomes [u], the bound textures are untouched, and the
    driver is told ([glActiveTexture (GL_TEXTURE0 + u)], once) exactly
    when [u] was not current already.  An index outside raises the
    index fault, its text carrying the index in decimal, with nothing
    changed and nothing sent.  The multitexturing fault cannot occur. *)
Theorem setTextureUnit_two_outcomes (u : Z) (g : OpenGL) :
  unit_in_range g ->
  (unit_valid g u
   /\ exists g' calls,
        setTextureUnit u g = Returns tt g' calls
        /\ state_curTextureUnit g' = u
        /\ state_textureUnits g' = state_textureUnits g
        /\ (u = state_curTextureUnit g -> calls = [] /\ g' = g)
        /\ (u <> state_curTextureUnit g ->
            calls = [glActiveTexture (GL_TEXTURE0 + u)]))
  \/ (~ unit_valid g u
      /\ setTextureUnit u g =
           Throws ("Invalid texture unit index (" +:+ pretty u +:+ ").") g []).
Proof.
  intros Hg. destruct (decide (unit_valid g u)) as [Hu|Hu].
  - left. split; [done|]. eexists _, _.
    split; [by apply setTextureUnit_valid|].
    split; [reflexivity|]. split; [reflexivity|].
    unfold switch_calls. split.
    + intros ->. rewrite bool_decide_true by done.
      by rewrite set_curTextureUnit_same.
    + intros Hne. by rewrite bool_decide_false.
  - right. split; [done|]. by apply setTextureUnit_invalid.
Qed.

Lemma setTextureUnit_two_outcomes_witness :
  (exists g', setTextureUnit 1 gl0 = Returns tt g' [glActiveTexture (GL_TEXTURE0 + 1)]
              /\ state_curTextureUnit g' = 1
              /\ state_textureUnits g' = [0; 0])
  /\ setTextureUnit 2 gl0 = Throws "Invalid texture unit index (2)." gl0 []
  /\ setTextureUnit (-1) gl0 = Throws "Invalid texture unit index (-1)." gl0 [].
Proof.
  assert (Hg : unit_in_range gl0) by (unfold unit_in_range; cbn; lia).
  split; [|split].
  - destruct (setTextureUnit_two_outcomes 1 gl0 Hg)
      as [(_ & g' & calls & Hrun & Hcur & Hunits & _ & Hcall)|(Hn & _)].
    + exists g'. rewrite Hrun, (Hcall ltac:(discriminate)).
      split; [reflexivity|]. split; [exact Hcur | exact Hunits].
    + exfalso. apply Hn. unfold unit_valid. cbn. lia.
  - destruct (setTextureUnit_two_outcomes 2 gl0 Hg) as [(Hv & _)|(_ & H)].
    + exfalso. unfold unit_valid in Hv. cbn in Hv. lia.
    + exact H.
  - destruct (setTextureUnit_two_outcomes (-1) gl0 Hg) as [(Hv & _)|(_ & H)].
    + exfalso. unfold unit_valid in Hv. cbn in Hv. lia.
    + exact H.
Defined.

(** X2.  [bindTextureToUnit t u true] on a unit in range returns with the
    current unit as it was, [t] cached for unit [u] and every other unit
    as before; it reaches the driver only if [t] was not cached for [u].
    An index outside the vector raises the index fault and changes
    nothing. *)
Theorem bindTextureToUnit_restores_unit (t : GLuint) (u : Z) (g : OpenGL) :
  unit_in_range g ->
  (unit_valid g u ->
   exists g' calls,
     bindTextureToUnit t u true g = Returns tt g' calls
     /\ state_curTextureUnit g' = state_curTextureUnit g
     /\ vec_at (state_textureUnits g') u = Some t
     /\ (forall j, j <> u ->
           vec_at (state_textureUnits g') j = vec_at (state_textureUnits g) j)
     /\ (calls = [] <-> vec_at (state_textureUnits g) u = Some t))
  /\ (~ unit_valid g u ->
      bindTextureToUnit t u true g = Throws fault_unit_index g []).
Proof.
  intros Hg. split; [|by apply bindTextureToUnit_invalid].
  intros Hu. destruct (unit_valid_bound g u Hu) as [bound Hb].
  destruct (decide (t = bound)) as [->|Hne].
  - exists g, []. rewrite (bindTextureToUnit_same u true g bound Hb).
    repeat split; try done.
  - eexists _, _. rewrite (bindTextureToUnit_other t u true g bound Hg Hb Hne).
    cbn zeta. split; [reflexivity|]. split; [reflexivity|].
    destruct (vec_store_at _ _ t _ Hb) as [_ Hat].
    split; [exact Hat|]. split.
    + intros j Hj. cbn. unfold vec_at. case_decide; [|done].
      apply list_lookup_insert_ne. unfold unit_valid in Hu. lia.
    + split.
      * intros E. by destruct (switch_calls g u).
      * intros E. congruence.
Qed.

Lemma bindTextureToUnit_restores_unit_witness :
  exists g' calls,
    bindTextureToUnit 7 1 true gl0 = Returns tt g' calls
    /\ state_curTextureUnit g' = 0
    /\ vec_at (state_textureUnits g') 1 = Some 7.
Proof.
  assert (Hg : unit_in_range gl0) by (unfold unit_in_range; cbn; lia).
  assert (Hu : unit_valid gl0 1) by (unfold unit_valid; cbn; lia).
  destruct (bindTextureToUnit_restores_unit 7 1 gl0 Hg) as [H _].
  destruct (H Hu) as (g' & calls & Hrun & Hcur & Hat & _).
  exists g', calls. split; [exact Hrun|]. split; [exact Hcur | exact Hat].
Defined.

(** X3.  Without [restoreprev] the unit that is current afterwards depends
    on the cache: [bindTextureToUnit t u false] makes [u] current when it
    has to bind, but leaves the current unit alone, without any driver
    call, when [t] is already cached for [u]. *)
Theorem bindTextureToUnit_switches_only_to_bind (t bound : GLuint) (u : Z) (g : OpenGL) :
  unit_in_range g ->
  vec_at (state_textureUnits g) u = Some bound ->
  exists g' calls,
    bindTextureToUnit t u false g = Returns tt g' calls
    /\ state_curTextureUnit g' =
         (if bool_decide (t = bound) then state_curTextureUnit g else u)
    /\ (t = bound -> calls = [] /\ g' = g)
    /\ (t <> bound -> calls = switch_calls g u ++ [glBindTexture GL_TEXTURE_2D t])
    /\ vec_at (state_textureUnits g') u = Some t.
Proof.
  intros Hg Hb. destruct (decide (t = bound)) as [->|Hne].
  - exists g, []. rewrite (bindTextureToUnit_same u false g bound Hb).
    rewrite bool_decide_true by done. repeat split; try done.
  - eexists _, _. rewrite (bindTextureToUnit_other t u false g bound Hg Hb Hne).
    cbn zeta. rewrite bool_decide_false by done.
    split; [reflexivity|]. split; [reflexivity|]. split; [done|].
    split; [by rewrite app_nil_r|].
    by destruct (vec_store_at _ _ t _ Hb) as [_ Hat].
Qed.

Lemma bindTextureToUnit_switches_only_to_bind_witness :
  (exists g' calls,
     bindTextureToUnit 0 1 false gl0 = Returns tt g' calls
     /\ state_curTextureUnit g' = 0)
  /\ (exists g' calls,
        bindTextureToUnit 7 1 false gl0 = Returns tt g' calls
        /\ state_curTextureUnit g' = 1).
Proof.
  assert (Hg : unit_in_range gl0) by (unfold unit_in_range; cbn; lia).
  assert (Hb : vec_at (state_textureUnits gl0) 1 = Some 0) by reflexivity.
  split.
  - destruct (bindTextureToUnit_switches_only_to_bind 0 0 1 gl0 Hg Hb)
      as (g' & calls & Hrun & Hcur & _).
    exists g', calls. split; [exact Hrun | exact Hcur].
  - destruct (bindTextureToUnit_switches_only_to_bind 7 0 1 gl0 Hg Hb)
      as (g' & calls & Hrun & Hcur & _).
    exists g', calls. split; [exact Hrun | exact Hcur].
Defined.

(** ** Filter and wrap tables *)

(** X4.  For the filters the front end lets through (min and mag linear
    or nearest, mipmap none, linear or nearest) the two enums
    [setTextureFilter] sends determine the portable description: distinct
    descriptions never share a driver setting.  The min enum is one of the
    four mipmap filters exactly when a mipmap mode is set. *)
Theorem filter_enums_determine_filter (f1 f2 : Filter) :
  valid_filter f1 -> valid_filter f2 ->
  (filter_gmin f1 = filter_gmin f2 -> filter_gmag f1 = filter_gmag f2 ->
   f_min f1 = f_min f2 /\ f_mag f1 = f_mag f2 /\ f_mipmap f1 = f_mipmap f2)
  /\ (is_mipmap_filter (filter_gmin f1) <-> f_mipmap f1 <> FILTER_NONE).
Proof.
  unfold valid_filter, filter_mode_ok, is_mipmap_filter.
  destruct f1 as [n1 g1 p1 a1], f2 as [n2 g2 p2 a2]; cbn.
  intros (Hn1 & Hg1 & Hp1) (Hn2 & Hg2 & Hp2).
  destruct Hn1 as [-> | ->], Hg1 as [-> | ->], Hp1 as [-> | [-> | ->]];
    destruct Hn2 as [-> | ->], Hg2 as [-> | ->], Hp2 as [-> | [-> | ->]];
    (split; [intros E1 E2; try done; vm_compute in E1, E2; try discriminate
            | vm_compute; split; intros H; try done; try tauto;
              repeat (destruct H as [H|H]; try discriminate) ]).
Qed.

Lemma filter_enums_determine_filter_witness :
  is_mipmap_filter (filter_gmin (mkFilter FILTER_LINEAR FILTER_NEAREST FILTER_NEAREST f32_one)).
Proof.
  destruct (filter_enums_determine_filter
              (mkFilter FILTER_LINEAR FILTER_NEAREST FILTER_NEAREST f32_one)
              (filter_linear f32_one)) as [_ [_ H]].
  - unfold valid_filter, filter_mode_ok. cbn. tauto.
  - unfold valid_filter, filter_mode_ok. cbn. tauto.
  - apply H. discriminate.
Defined.

(** X5.  [setTextureWrap] sends the S axis, then the T axis, each from
    its own mode, and leaves the object alone: clamp goes out as
    [GL_CLAMP_TO_EDGE], repeat as [GL_REPEAT], mirrored repeat as
    [GL_MIRRORED_REPEAT], and the end-of-enum value as clamp-to-edge.
    For the three wrap modes proper the calls determine the request. *)
Theorem setTextureWrap_calls_determine_wrap (w1 w2 : Wrap) (g : OpenGL) :
  setTextureWrap w1 g =
    Returns tt g
      [glTexParameteri GL_TEXTURE_2D GL_TEXTURE_WRAP_S (glWrapMode (w_s w1));
       glTexParameteri GL_TEXTURE_2D GL_TEXTURE_WRAP_T (glWrapMode (w_t w1))]
  /\ (glWrapMode WRAP_CLAMP = GL_CLAMP_TO_EDGE
      /\ glWrapMode WRAP_REPEAT = GL_REPEAT
      /\ glWrapMode WRAP_MIRRORED_REPEAT = GL_MIRRORED_REPEAT
      /\ glWrapMode WRAP_MAX_ENUM = GL_CLAMP_TO_EDGE)
  /\ (valid_wrap w1 -> valid_wrap w2 ->
      setTextureWrap w1 g = setTextureWrap w2 g -> w1 = w2).
Proof.
  split; [reflexivity|]. split; [by repeat split|].
  unfold valid_wrap. destruct w1 as [[] []], w2 as [[] []]; cbn;
    intros [? ?] [? ?] E; try done; vm_compute in E; discriminate E.
Qed.

Lemma setTextureWrap_calls_determine_wrap_witness :
  setTextureWrap (mkWrap WRAP_REPEAT WRAP_CLAMP) gl0 =
    Returns tt gl0
      [glTexParameteri GL_TEXTURE_2D GL_TEXTURE_WRAP_S GL_REPEAT;
       glTexParameteri GL_TEXTURE_2D GL_TEXTURE_WRAP_T GL_CLAMP_TO_EDGE]
  /\ setTextureWrap (mkWrap WRAP_REPEAT WRAP_CLAMP) gl0
     <> setTextureWrap (mkWrap WRAP_CLAMP WRAP_REPEAT) gl0.
Proof.
  destruct (setTextureWrap_calls_determine_wrap
              (mkWrap WRAP_REPEAT WRAP_CLAMP) (mkWrap WRAP_CLAMP WRAP_REPEAT) gl0)
    as (Hrun & (_ & Hrepeat & _ & _) & H).
  split.
  - rewrite Hrun. cbn [w_s w_t]. rewrite Hrepeat. reflexivity.
  - intros E. apply H in E.
    + discriminate E.
    + unfold valid_wrap. cbn. split; discriminate.
    + unfold valid_wrap. cbn. split; discriminate.
Defined.

(** ** Scoped transforms *)

Lemma throughTransform_snoc f g t m :
  matrices_transform g = t ++ [m] ->
  throughTransform f g = Returns tt (set_transform (t ++ [f m]) g) [].
Proof.
  intros Hg. unfold throughTransform. gl_run.
  rewrite Hg, vec_back_snoc. gl_run. rewrite vec_pop_back_snoc. reflexivity.
Qed.

Lemma transform_ops_step o rest g g1 :
  transform_op o g = Returns tt g1 [] ->
  transform_ops (o :: rest) g = transform_ops rest g1.
Proof.
  intros Ho. cbn. gl_unfold. rewrite Ho.
  destruct (transform_ops rest g1); reflexivity.
Qed.

Lemma snoc_of_length {A} (l : list A) d :
  length l = S d -> exists r m, l = r ++ [m] /\ length r = d.
Proof.
  intros Hl. destruct (snoc_of_nonempty l) as (r & m & ->).
  - intros ->. discriminate Hl.
  - exists r, m. split; [done|]. rewrite length_app in Hl. cbn in Hl. lia.
Qed.

(** Whatever scoped code does happens above the entries it found. *)
Lemma scoped_above ops : forall d base extra g,
  base <> [] ->
  matrices_transform g = base ++ extra ->
  length extra = d ->
  scoped d ops = true ->
  transform_ops ops g = Returns tt (set_transform base g) [].
Proof.
  induction ops as [|[| |f] ops IH]; intros d base extra g Hb Hg Hd Hs.
  - cbn in Hs. apply bool_decide_eq_true in Hs. subst d.
    destruct extra; [|done]. rewrite app_nil_r in Hg.
    by rewrite <- Hg, set_transform_same.
  - destruct (snoc_of_nonempty (base ++ extra)) as (t & m & Ht).
    { by destruct base. }
    rewrite Ht in Hg.
    rewrite (transform_ops_step TPush ops g _ (pushTransform_snoc g t m Hg)).
    rewrite (IH (S d) base (extra ++ [m])); try done.
    + cbn. by rewrite <- Ht, app_assoc.
    + rewrite length_app. cbn. lia.
  - destruct d as [|d]; [discriminate|].
    destruct (snoc_of_length extra d Hd) as (r & m & -> & Hr).
    rewrite app_assoc in Hg.
    rewrite (transform_ops_step TPop ops g _ (popTransform_snoc g _ m Hg)).
    rewrite (IH d base r); done.
  - destruct d as [|d]; [discriminate|].
    destruct (snoc_of_length extra d Hd) as (r & m & -> & Hr).
    rewrite app_assoc in Hg.
    rewrite (transform_ops_step (TThrough f) ops g _ (throughTransform_snoc f g _ m Hg)).
    rewrite (IH (S d) base (r ++ [f m])); try done.
    + cbn. by rewrite app_assoc.
    + rewrite length_app. cbn. lia.
Qed.

(** X6.  Scoped drawing code leaves the transform stack as it found it:
    if every push is popped again and the code pops and transforms only
    inside a push of its own, then on a non-empty stack it runs to
    completion, makes no driver call and gives back the same object,
    however it transformed the top entry in between. *)
Theorem scoped_transforms_are_undone (ops : list TransformOp) (g : OpenGL) :
  matrices_transform g <> [] ->
  scoped 0 ops = true ->
  transform_ops ops g = Returns tt g [].
Proof.
  intros Hg Hs.
  rewrite (scoped_above ops 0 (matrices_transform g) [] g); try done.
  - by rewrite set_transform_same.
  - by rewrite app_nil_r.
Qed.

Lemma scoped_transforms_are_undone_witness :
  transform_ops
    [TPush; TThrough (fun m => f32_one :: m); TPush; TThrough (fun _ => []);
     TPop; TThrough (fun m => m ++ m); TPop] gl0
  = Returns tt gl0 [].
Proof.
  apply (scoped_transforms_are_undone _ gl0); [discriminate | reflexivity].
Defined.

(** X7.  Once the last entry is gone the stack is unusable: on a
    one-entry transform stack [popTransform] returns normally, and the
    [pushTransform], [popTransform] or [getTransform] that follows has
    undefined behaviour (each reads or removes the last entry of an empty
    vector). *)
Theorem unbalanced_pop_then_undefined (g : OpenGL) (m : Matrix) :
  matrices_transform g = [m] ->
  popTransform g = Returns tt (set_transform [] g) []
  /\ (popTransform;; pushTransform) g = Undefined
  /\ (popTransform;; popTransform) g = Undefined
  /\ (popTransform;; getTransform) g = Undefined.
Proof.
  intros Hg.
  assert (E : popTransform g = Returns tt (set_transform [] g) []).
  { by apply (popTransform_snoc g [] m). }
  split; [exact E|].
  unfold mbind, GL_bind, gl_bind. rewrite E. repeat split.
Qed.

Lemma unbalanced_pop_then_undefined_witness :
  (popTransform;; getTransform) gl0 = Undefined.
Proof.
  destruct (unbalanced_pop_then_undefined gl0 Matrix_new) as (_ & _ & _ & H);
    [reflexivity | exact H].
Defined.

(** ** Texture memory accounting *)

Lemma set_textureMemory_same g : set_textureMemory (stats_textureMemory g) g = g.
Proof. by destruct g. Qed.

Lemma set_textureMemory_twice a b g :
  set_textureMemory a (set_textureMemory b g) = set_textureMemory a g.
Proof. by destruct g. Qed.

(** Below 2^63 the casts and the [int64] arithmetic are exact. *)
Lemma updateTextureMemorySize_exact bits oldsize newsize g :
  0 <= stats_textureMemory g < 2 ^ 63 ->
  0 <= oldsize < 2 ^ 63 -> 0 <= newsize < 2 ^ 63 ->
  stats_textureMemory g + newsize - oldsize < 2 ^ 63 ->
  updateTextureMemorySize bits oldsize newsize g =
    Returns tt
      (set_textureMemory
         (to_size_t bits (Z.max (stats_textureMemory g + newsize - oldsize) 0)) g) [].
Proof.
  intros Htm Hold Hnew Hsum. rewrite updateTextureMemorySize_run.
  unfold int64_add, int64_sub.
  rewrite (to_int64_id (stats_textureMemory g)) by (unfold is_int64; lia).
  rewrite (to_int64_id newsize) by (unfold is_int64; lia).
  rewrite (to_int64_id oldsize) by (unfold is_int64; lia).
  rewrite (to_int64_id (newsize - oldsize)) by (unfold is_int64; lia).
  rewrite to_int64_id by (unfold is_int64; lia).
  do 3 f_equal. lia.
Qed.

Lemma to_size_t_id bits z : is_size_t bits z -> to_size_t bits z = z.
Proof. unfold is_size_t, to_size_t. intros Hz. by apply Z.mod_small. Qed.

(** X8.  Accounting is reversible while it does not saturate: with
    counter and sizes below 2^62, resizing a texture from [oldsize] to
    [newsize] and back leaves the counter where it was, provided the
    counter covered the shrink ([oldsize <= counter + newsize]) and the
    intermediate value fits [size_t]. *)
Theorem resize_and_back_restores_counter
    (bits oldsize newsize : Z) (g : OpenGL) :
  is_size_t bits (stats_textureMemory g) ->
  stats_textureMemory g < 2 ^ 62 ->
  0 <= oldsize < 2 ^ 62 -> 0 <= newsize < 2 ^ 62 ->
  oldsize <= stats_textureMemory g + newsize ->
  is_size_t bits (stats_textureMemory g + newsize - oldsize) ->
  (updateTextureMemorySize bits oldsize newsize;;
   updateTextureMemorySize bits newsize oldsize) g = Returns tt g [].
Proof.
  intros Htm Htm' Hold Hnew Hcover Hfit.
  assert (H0 : 0 <= stats_textureMemory g) by (unfold is_size_t in Htm; lia).
  unfold mbind, GL_bind, gl_bind.
  rewrite updateTextureMemorySize_exact by lia.
  rewrite Z.max_l by lia. rewrite to_size_t_id by done.
  rewrite updateTextureMemorySize_exact;
    cbn [stats_textureMemory set_textureMemory]; try lia.
  rewrite set_textureMemory_twice.
  replace (stats_textureMemory g + newsize - oldsize + oldsize - newsize)
    with (stats_textureMemory g) by lia.
  rewrite Z.max_l by lia. rewrite to_size_t_id by done.
  by rewrite set_textureMemory_same.
Qed.

Lemma resize_and_back_restores_counter_witness :
  (updateTextureMemorySize 64 4096 1024;; updateTextureMemorySize 64 1024 4096)
    (set_textureMemory 5000 gl0)
  = Returns tt (set_textureMemory 5000 gl0) [].
Proof.
  apply (resize_and_back_restores_counter 64 4096 1024 (set_textureMemory 5000 gl0));
    unfold is_size_t; cbn; lia.
Defined.

(** X9.  Saturation is not reversible: when a shrink exceeds the counter
    (sizes below 2^62), the counter stops at zero, and growing back by
    the same amount leaves it at [oldsize - newsize], above its value
    before the two calls; no driver call is made. *)
Theorem saturated_counter_over_reports
    (bits oldsize newsize : Z) (g : OpenGL) :
  0 <= stats_textureMemory g ->
  0 <= newsize -> oldsize < 2 ^ 62 ->
  stats_textureMemory g + newsize < oldsize ->
  is_size_t bits (oldsize - newsize) ->
  exists g1 g',
    updateTextureMemorySize bits oldsize newsize g = Returns tt g1 []
    /\ stats_textureMemory g1 = 0
    /\ updateTextureMemorySize bits newsize oldsize g1 = Returns tt g' []
    /\ stats_textureMemory g' = oldsize - newsize
    /\ (updateTextureMemorySize bits oldsize newsize;;
        updateTextureMemorySize bits newsize oldsize) g = Returns tt g' []
    /\ stats_textureMemory g < stats_textureMemory g'.
Proof.
  intros Htm Hnew Hold Hsat Hfit.
  assert (Hb : 0 <= bits).
  { unfold is_size_t in Hfit. destruct (Z.le_gt_cases 0 bits) as [|Hneg]; [done|].
    rewrite Z.pow_neg_r in Hfit by lia. lia. }
  assert (E0 : to_size_t bits 0 = 0).
  { apply to_size_t_id. unfold is_size_t. split; [lia|]. by apply Z.pow_pos_nonneg. }
  assert (E1 : updateTextureMemorySize bits oldsize newsize g =
               Returns tt (set_textureMemory 0 g) []).
  { rewrite updateTextureMemorySize_exact by lia.
    rewrite Z.max_r by lia. by rewrite E0. }
  assert (E2 : updateTextureMemorySize bits newsize oldsize (set_textureMemory 0 g) =
               Returns tt (set_textureMemory (oldsize - newsize) g) []).
  { rewrite updateTextureMemorySize_exact;
      cbn [stats_textureMemory set_textureMemory]; try lia.
    rewrite set_textureMemory_twice.
    replace (0 + oldsize - newsize) with (oldsize - newsize) by lia.
    rewrite Z.max_l by lia. by rewrite to_size_t_id. }
  exists (set_textureMemory 0 g), (set_textureMemory (oldsize - newsize) g).
  split; [exact E1|]. split; [reflexivity|]. split; [exact E2|].
  split; [reflexivity|]. split.
  - unfold mbind, GL_bind, gl_bind. rewrite E1, E2. reflexivity.
  - cbn. lia.
Qed.

Lemma saturated_counter_over_reports_witness :
  exists g1 g',
    updateTextureMemorySize 64 4096 0 (set_textureMemory 100 gl0) = Returns tt g1 []
    /\ stats_textureMemory g1 = 0
    /\ updateTextureMemorySize 64 0 4096 g1 = Returns tt g' []
    /\ stats_textureMemory g' = 4096.
Proof.
  destruct (saturated_counter_over_reports 64 4096 0 (set_textureMemory 100 gl0))
    as (g1 & g' & H1 & Hz & H2 & Hc & _).
  - cbn. lia.
  - lia.
  - lia.
  - cbn. lia.
  - unfold is_size_t. lia.
  - exists g1, g'. split; [exact H1|]. split; [exact Hz|]. split; [exact H2|].
    rewrite Hc. reflexivity.
Defined.

(** ** When [setBlendState] cannot fail *)

(** X10.  With core support (ES 2.0 or GL 1.4) [setBlendState] accepts
    every request: it makes exactly two calls, [glBlendEquation] and then
    [glBlendFunc] (equal factors) or [glBlendFuncSeparate] (otherwise),
    and caches the request, which [getBlendState] then returns; nothing
    else in the object changes.  And the additive request with equal
    factors, such as the replace blend [initContext] sets, is accepted
    and cached on every driver. *)
Theorem setBlendState_cannot_fail (glad : Glad) (blend : BlendState) (g : OpenGL) :
  (GLAD_ES_VERSION_2_0 glad || GLAD_VERSION_1_4 glad = true ->
   exists g' factors,
     setBlendState glad blend g =
       Returns tt g' [glBlendEquation (func blend); factors]
     /\ state_blend g' = blend
     /\ getBlendState g' = Returns blend g' []
     /\ g' = set_blend (state_blend g') g
     /\ (factors_combined blend ->
         factors = glBlendFunc (srcRGB blend) (dstRGB blend))
     /\ (~ factors_combined blend ->
         factors = glBlendFuncSeparate (srcRGB blend) (dstRGB blend)
                     (srcA blend) (dstA blend)))
  /\ (func blend = GL_FUNC_ADD -> factors_combined blend ->
      exists g',
        setBlendState glad blend g =
          Returns tt g'
            (equation_calls glad blend ++ [glBlendFunc (srcRGB blend) (dstRGB blend)])
        /\ state_blend g' = blend
        /\ getBlendState g' = Returns blend g' []
        /\ g' = set_blend (state_blend g') g).
Proof.
  split.
  - intros Hcore.
    assert (Hm : has_blend_equation glad = true \/ func blend <> GL_FUNC_REVERSE_SUBTRACT).
    { left. unfold has_blend_equation. by rewrite Hcore. }
    assert (Hs : has_blend_separate glad = true).
    { unfold has_blend_separate. by rewrite Hcore. }
    assert (He : equation_calls glad blend = [glBlendEquation (func blend)]).
    { unfold equation_calls. by rewrite Hcore. }
    destruct (decide (factors_combined blend)) as [Hc|Hc].
    + eexists _, _. rewrite setBlendState_combined, He by done.
      split; [reflexivity|]. repeat split; tauto.
    + eexists _, _. rewrite setBlendState_separate, He by done.
      unfold separate_call. rewrite Hcore.
      split; [reflexivity|]. repeat split; tauto.
  - intros Hf Hc. eexists. rewrite setBlendState_combined; [|right|done].
    + repeat split.
    + rewrite Hf. discriminate.
Qed.

Lemma setBlendState_cannot_fail_witness :
  let blend := mkBlendState GL_ZERO GL_ZERO GL_ONE GL_ONE GL_FUNC_ADD in
  exists g',
    setBlendState glad_legacy blend gl0 = Returns tt g' [glBlendFunc GL_ZERO GL_ONE]
    /\ state_blend g' = blend
    /\ state_blend gl0 <> blend
    /\ getBlendState g' = Returns blend g' [].
Proof.
  intros blend.
  destruct (setBlendState_cannot_fail glad_legacy blend gl0) as [_ H].
  destruct H as (g' & Hrun & Hb & Hget & _); [reflexivity | split; reflexivity |].
  exists g'. split; [exact Hrun|]. split; [exact Hb|]. split; [discriminate | exact Hget].
Defined.

(** ** Feeding a filter back *)

(** X11.  [setTextureFilter] writes the anisotropy it used back into the
    caller's filter; applying that filter again changes nothing: the same
    calls are made and the same value and filter come back.  (With the
    extension this needs a request that is a number and a limit of at
    least 1.0.) *)
Theorem setTextureFilter_settles (glad : Glad) (f : Filter) (g : OpenGL) :
  GLAD_EXT_texture_filter_anisotropic glad = false
  \/ (f32_is_nan (f_anisotropy f) = false /\ SFleb f32_one (maxAnisotropy g) = true) ->
  exists r f' calls,
    setTextureFilter glad f g = Returns (r, f') g calls
    /\ setTextureFilter glad f' g = Returns (r, f') g calls
    /\ f_anisotropy f' = r
    /\ f_min f' = f_min f /\ f_mag f' = f_mag f /\ f_mipmap f' = f_mipmap f.
Proof.
  intros H. unfold setTextureFilter. gl_run.
  destruct (GLAD_EXT_texture_filter_anisotropic glad) eqn:Hext.
  - destruct H as [H|[Hnan Hmax]]; [discriminate|].
    destruct (clamp_bounds (f_anisotropy f) (maxAnisotropy g) Hnan Hmax)
      as (Hlo & Hhi & _).
    set (r := std_min (std_max (f_anisotropy f) f32_one) (maxAnisotropy g)) in *.
    destruct (SFleb_not_nan _ _ Hhi) as [Hr _].
    destruct (clamp_bounds r (maxAnisotropy g) Hr Hmax) as (_ & _ & Hid).
    specialize (Hid Hlo Hhi). cbn zeta in Hid.
    eexists r, _, _. split; [reflexivity|]. cbn. rewrite Hid.
    repeat split.
  - eexists _, _, _. split; [reflexivity|]. by destruct f.
Qed.

Lemma setTextureFilter_settles_witness :
  exists r f' calls,
    setTextureFilter glad_modern (filter_linear f32_64) gl_aniso16 = Returns (r, f') gl_aniso16 calls
    /\ setTextureFilter glad_modern f' gl_aniso16 = Returns (r, f') gl_aniso16 calls.
Proof.
  destruct (setTextureFilter_settles glad_modern (filter_linear f32_64) gl_aniso16)
    as (r & f' & calls & H1 & H2 & _).
  - right. split; reflexivity.
  - exists r, f', calls. split; [exact H1 | exact H2].
Defined.

(** * The context: life cycle, draw counters, deletion *)

Ltac ctx_unfold :=
  unfold mbind, mret, CTX_bind, CTX_ret, ctx_bind, ctx_ret,
    self, modify, command, unspecified, lift,
    GL_bind, GL_ret, gl_bind, gl_ret,
    this, update, driver, throw, undefined, defined in *.

Ltac ctx_run := repeat (progress (ctx_unfold; cbn in *)).

Lemma to_int_add_l a b : to_int (to_int a + b) = to_int (a + b).
Proof.
  unfold to_int. f_equal.
  replace ((a + 2 ^ 31) mod 2 ^ 32 - 2 ^ 31 + b + 2 ^ 31)
    with ((a + 2 ^ 31) mod 2 ^ 32 + b) by lia.
  rewrite Zplus_mod_idemp_l. f_equal. lia.
Qed.

Lemma set_drawCalls_same c : set_drawCalls (stats_drawCalls c) c = c.
Proof. by destruct c. Qed.

Lemma draw_run w c :
  draw w c = Done tt (set_drawCalls (int_add (stats_drawCalls c) 1) c) [draw_command w].
Proof. by destruct w. Qed.

Lemma draws_run ws : forall c,
  is_int (stats_drawCalls c) ->
  draws ws c =
    Done tt (set_drawCalls (to_int (stats_drawCalls c + Z.of_nat (length ws))) c)
      (draw_command <$> ws).
Proof.
  induction ws as [|w ws IH]; intros c Hc.
  - cbn. rewrite Z.add_0_r, to_int_id by done. by rewrite set_drawCalls_same.
  - cbn [draws]. unfold mbind, CTX_bind, ctx_bind. rewrite draw_run.
    rewrite IH by (cbn; apply to_int_is_int).
    cbn [stats_drawCalls set_drawCalls]. unfold int_add.
    rewrite to_int_add_l. f_equal.
    + replace (stats_drawCalls c + 1 + Z.of_nat (length ws))
        with (stats_drawCalls c + Z.of_nat (length (w :: ws))) by (cbn [length]; lia).
      by destruct c.
Qed.

(** X12.  Every draw call, of any of the three kinds, reaches the driver
    and counts once: after a sequence of draws the driver has received
    exactly those commands, in order, and [stats.drawCalls] has grown by
    their number (as an [int]); nothing else in the context changes. *)
Theorem draws_count_once_each (ws : list Draw) (c : Context) :
  is_int (stats_drawCalls c) ->
  exists c',
    draws ws c = Done tt c' (draw_command <$> ws)
    /\ stats_drawCalls c' = to_int (stats_drawCalls c + Z.of_nat (length ws))
    /\ (is_int (stats_drawCalls c + Z.of_nat (length ws)) ->
        stats_drawCalls c' = stats_drawCalls c + Z.of_nat (length ws))
    /\ c' = set_drawCalls (stats_drawCalls c') c.
Proof.
  intros Hc. eexists. rewrite draws_run by done.
  split; [reflexivity|]. cbn. split; [reflexivity|]. split; [|reflexivity].
  apply to_int_id.
Qed.

Lemma draws_count_once_each_witness :
  exists c',
    draws [DrawArrays 4 0 6; DrawElements 4 6 0x1403 0; DrawElementsBaseVertex 4 6 0x1403 0 2] ctx0
    = Done tt c' [glDrawArrays 4 0 6; glDrawElements 4 6 0x1403 0;
                  glDrawElementsBaseVertex 4 6 0x1403 0 2]
    /\ stats_drawCalls c' = 3.
Proof.
  destruct (draws_count_once_each
              [DrawArrays 4 0 6; DrawElements 4 6 0x1403 0;
               DrawElementsBaseVertex 4 6 0x1403 0 2] ctx0)
    as (c' & Hrun & _ & Hcount & _).
  - unfold is_int, INT_MIN, INT_MAX. cbn. lia.
  - exists c'. split; [exact Hrun|]. apply Hcount.
    unfold is_int, INT_MIN, INT_MAX. cbn. lia.
Defined.

(** ** Deleting textures *)

Lemma deleteTexture_run t c :
  deleteTexture t c =
    Done tt (set_object (set_textureUnits (unbind t <$> state_textureUnits (object c))
                           (object c)) c)
      [glDeleteTextures 1 t].
Proof. reflexivity. Qed.

Lemma tex_commands_app k1 k2 d :
  tex_commands (k1 ++ k2) d = tex_commands k2 (tex_commands k1 d).
Proof. unfold tex_commands. apply fold_left_app. Qed.

Lemma tex_commands_gl calls d :
  tex_commands (gl_call <$> calls) d = tex_calls calls d.
Proof.
  revert d. induction calls as [|k calls IH]; intros d; [done|]. cbn. apply IH.
Qed.

(** X13.  [deleteTexture t] sends one [glDeleteTextures] and rewrites the
    cache the way the driver rewrites its bindings: every unit that held
    [t] holds 0, every other unit keeps its texture, the number of units
    and everything else in the context stay as they were.  So for
    [t <> 0] no unit holds [t] afterwards, and the next [bindTexture t]
    is not mistaken for redundant: it reaches the driver. *)
Theorem deleteTexture_forgets_handle (t : GLuint) (c : Context) :
  exists c',
    deleteTexture t c = Done tt c' [glDeleteTextures 1 t]
    /\ c' = set_object (set_textureUnits (state_textureUnits (object c')) (object c)) c
    /\ length (state_textureUnits (object c')) = length (state_textureUnits (object c))
    /\ (forall i x, state_textureUnits (object c) !! i = Some x ->
          state_textureUnits (object c') !! i = Some (if bool_decide (x = t) then 0 else x))
    /\ (t <> 0 -> t ∉ state_textureUnits (object c'))
    /\ (t <> 0 -> unit_in_range (object c) ->
        exists c'',
          (deleteTexture t;; lift (bindTexture t)) c =
            Done tt c'' [glDeleteTextures 1 t; gl_call (glBindTexture GL_TEXTURE_2D t)]).
Proof.
  eexists. rewrite deleteTexture_run. split; [reflexivity|].
  cbn [object set_object state_textureUnits set_textureUnits].
  split; [reflexivity|]. split; [by rewrite length_fmap|].
  assert (Hnot : t <> 0 -> t ∉ unbind t <$> state_textureUnits (object c)).
  { intros Ht [x [Hx _]]%list_elem_of_fmap. unfold unbind in Hx.
    case_bool_decide; congruence. }
  split; [|split; [exact Hnot|]].
  - intros i x Hi. rewrite list_lookup_fmap, Hi. reflexivity.
  - intros Ht Hg.
    set (g1 := set_textureUnits (unbind t <$> state_textureUnits (object c)) (object c)).
    assert (Hg1 : unit_in_range g1).
    { unfold unit_in_range, g1 in *. cbn. by rewrite length_fmap. }
    destruct (unit_in_range_bound g1 Hg1) as [bound Hb].
    assert (Hne : t <> bound).
    { intros <-. apply (Hnot Ht). apply vec_at_Some in Hb as [_ Hb].
      by eapply list_elem_of_lookup_2. }
    eexists. unfold mbind, CTX_bind, ctx_bind. rewrite deleteTexture_run.
    unfold lift. cbn [object set_object]. fold g1.
    rewrite (bindTexture_other g1 bound t Hb Hne). reflexivity.
Qed.

Lemma deleteTexture_forgets_handle_witness :
  exists c'',
    (deleteTexture 7;; lift (bindTexture 7))
      (set_object (set_textureUnits [7; 7] gl0) ctx0) =
    Done tt c'' [glDeleteTextures 1 7; gl_call (glBindTexture GL_TEXTURE_2D 7)].
Proof.
  destruct (deleteTexture_forgets_handle 7 (set_object (set_textureUnits [7; 7] gl0) ctx0))
    as (_ & _ & _ & _ & _ & _ & H).
  apply H; [discriminate|]. unfold unit_in_range. cbn. lia.
Defined.

(** ** The cache mirrors the driver *)

Lemma lift_mirrors o c d :
  unit_in_range (object c) -> in_step (object c) d ->
  mirrors d (lift (tex_op o) c).
Proof.
  intros Hg Hd. pose proof (tex_op_in_step o (object c) d Hg Hd) as H.
  unfold lift. destruct (tex_op o (object c)) as [[] g' calls|e g' calls|];
    cbn in *; try done; by rewrite tex_commands_gl.
Qed.

Lemma delete_mirrors t c d :
  unit_in_range (object c) -> in_step (object c) d ->
  mirrors d (deleteTexture t c).
Proof.
  intros Hg [Hb Ha]. rewrite deleteTexture_run. cbn. split.
  - split; cbn; [by rewrite Hb | done].
  - unfold unit_in_range in *. cbn. by rewrite length_fmap.
Qed.

(** X14.  Starting in step with the driver, any sequence of
    [setTextureUnit], [bindTexture], [bindTextureToUnit] and
    [deleteTexture] leaves the cache in step with the driver that received
    the commands made: the cached textures are the driver's bindings and
    the cached current unit is the driver's active unit.  This holds also
    when the sequence is cut short by a fault; no step has undefined
    behaviour, and the current unit stays in range. *)
Theorem texture_cache_mirrors_driver (ops : list CtxOp) (c : Context) (d : TexDriver) :
  unit_in_range (object c) -> in_step (object c) d -> mirrors d (ctx_ops ops c).
Proof.
  revert c d. induction ops as [|o ops IH]; intros c d Hg Hd; [by split|].
  cbn [ctx_ops].
  assert (Ho : mirrors d (ctx_op o c)).
  { destruct o; [by apply lift_mirrors | by apply delete_mirrors]. }
  unfold mbind, CTX_bind, ctx_bind.
  destruct (ctx_op o c) as [[] c1 k1|e c1 k1|]; [|exact Ho|done].
  destruct Ho as [Hd1 Hg1]. pose proof (IH c1 _ Hg1 Hd1) as Hrest.
  destruct (ctx_ops ops c1) as [[] c2 k2|e c2 k2|]; [| |done];
    cbn [mirrors] in *; by rewrite tex_commands_app.
Qed.

Lemma texture_cache_mirrors_driver_witness :
  mirrors (mkTexDriver 0 [0; 0])
    (ctx_ops [Tex (OpBind 5); Tex (OpBindToUnit 9 1 true); Delete 5;
              Tex (OpUnit 1); Tex (OpBind 9); Tex (OpUnit 4)]
       (set_object gl0 ctx0)).
Proof.
  apply (texture_cache_mirrors_driver _ (set_object gl0 ctx0) (mkTexDriver 0 [0; 0])).
  - unfold unit_in_range. cbn. lia.
  - split; reflexivity.
Defined.

(** ** The default texture *)

Local Arguments bindTexture : simpl never.

Lemma createDefaultTexture_run a c curtexture :
  vec_at (state_textureUnits (object c)) (state_curTextureUnit (object c))
    = Some curtexture ->
  createDefaultTexture a c =
    Done tt (set_defaultTexture (generated_texture a) c)
      (glGenTextures 1 (generated_texture a)
       :: rebind curtexture (generated_texture a)
       ++ default_texture_setup
       ++ rebind (generated_texture a) curtexture).
Proof.
  intros Hb. unfold createDefaultTexture, rebind. ctx_run. rewrite Hb. ctx_run.
  destruct (decide (generated_texture a = curtexture)) as [E|E].
  - rewrite E in *. rewrite (bindTexture_same _ _ Hb). ctx_run.
    rewrite (bindTexture_same _ _ Hb). ctx_run.
    rewrite !bool_decide_true by done. by destruct c.
  - rewrite (bindTexture_other _ _ _ Hb E). ctx_run.
    destruct (vec_store_at _ _ (generated_texture a) _ Hb) as [_ Hb'].
    rewrite (bindTexture_other _ (generated_texture a) curtexture); [|exact Hb'|congruence].
    ctx_run. rewrite !bool_decide_false by congruence.
    rewrite list_insert_insert_eq, list_insert_id.
    + by destruct c as [[] ? ? ? ? ? ? ?].
    + by apply vec_at_Some in Hb as [_ Hb].
Qed.

Lemma tex_commands_setup d : tex_commands default_texture_setup d = d.
Proof. reflexivity. Qed.

Lemma tex_commands_rebind_there_and_back d cur name :
  drv_current d = Some cur ->
  drv_current (tex_commands (glGenTextures 1 name :: rebind cur name) d) = Some name
  /\ tex_commands (glGenTextures 1 name :: rebind cur name
                   ++ default_texture_setup ++ rebind name cur) d = d.
Proof.
  unfold drv_current, rebind. intros Hc.
  destruct (decide (name = cur)) as [->|Hne].
  - rewrite !bool_decide_true by done. by split.
  - rewrite !bool_decide_false by congruence. cbn.
    rewrite !bool_decide_true by done. cbn. split.
    + apply list_lookup_insert_eq. by eapply lookup_lt_Some.
    + rewrite list_insert_insert_eq, list_insert_id by done. by destruct d.
Qed.

Lemma in_step_current g d bound :
  in_step g d ->
  vec_at (state_textureUnits g) (state_curTextureUnit g) = Some bound ->
  drv_current d = Some bound.
Proof.
  intros [Hb Ha] [_ H]%vec_at_Some. unfold drv_current. by rewrite <- Hb, <- Ha.
Qed.

(** X15.  [createDefaultTexture] puts things back: the context comes out
    with the generated name as default texture and nothing else changed
    (the cache of bound textures included), and the driver, if the cache
    was in step with it, ends with the bindings it started with.  In
    between, the filter, wrap and pixel commands are issued while the new
    texture is the one bound to the active unit, so they configure it and
    not the texture that was bound before. *)
Theorem createDefaultTexture_restores_binding (a : Answers) (c : Context) (d : TexDriver) :
  unit_in_range (object c) -> in_step (object c) d ->
  exists before after,
    createDefaultTexture a c =
      Done tt (set_defaultTexture (generated_texture a) c)
        (before ++ default_texture_setup ++ after)
    /\ drv_current (tex_commands before d) = Some (generated_texture a)
    /\ tex_commands (before ++ default_texture_setup ++ after) d = d.
Proof.
  intros Hg Hd. destruct (unit_in_range_bound _ Hg) as [cur Hb].
  pose proof (in_step_current _ _ _ Hd Hb) as Hc.
  destruct (tex_commands_rebind_there_and_back d cur (generated_texture a) Hc)
    as [H1 H2].
  exists (glGenTextures 1 (generated_texture a) :: rebind cur (generated_texture a)),
    (rebind (generated_texture a) cur).
  rewrite (createDefaultTexture_run a c cur Hb). repeat split; done.
Qed.

Lemma createDefaultTexture_restores_binding_witness :
  exists before after,
    createDefaultTexture
      (mkAnswers true None (mkViewport 0 0 0 0) (mkViewport 0 0 0 0) f32_one 0
         f32_one 0 0 0 (mkTexDriver 0 [0; 0]) 42)
      (set_object gl0 ctx0)
    = Done tt (set_defaultTexture 42 (set_object gl0 ctx0))
        (before ++ default_texture_setup ++ after)
    /\ drv_current (tex_commands before (mkTexDriver 0 [0; 0])) = Some 42.
Proof.
  destruct (createDefaultTexture_restores_binding
              (mkAnswers true None (mkViewport 0 0 0 0) (mkViewport 0 0 0 0) f32_one 0
                 f32_one 0 0 0 (mkTexDriver 0 [0; 0]) 42)
              (set_object gl0 ctx0) (mkTexDriver 0 [0; 0]))
    as (before & after & Hrun & Hcur & _).
  - unfold unit_in_range. cbn. lia.
  - split; reflexivity.
  - exists before, after. split; [exact Hrun | exact Hcur].
Defined.

(** ** Leaving and entering the context *)

(** X16.  [deInitContext] does nothing on a context that is not
    initialized; on an initialized one it deletes the default texture
    with one driver command, zeroes the handle and clears the flag,
    touching nothing else.  Calling it twice is the same as calling it
    once. *)
Theorem deInitContext_once_is_enough (c : Context) :
  (contextInitialized c = false -> deInitContext c = Done tt c [])
  /\ (contextInitialized c = true ->
      deInitContext c =
        Done tt (set_contextInitialized false (set_defaultTexture 0 c))
          [glDeleteTextures 1 (state_defaultTexture c)])
  /\ (deInitContext;; deInitContext) c = deInitContext c
  /\ (forall c' calls, deInitContext c = Done tt c' calls ->
        contextInitialized c' = false /\ object c' = object c).
Proof.
  unfold deInitContext. ctx_run.
  destruct c as [g [] n ts rt ps dt fbo]; cbn;
    (split; [done|]); (split; [done|]); (split; [done|]);
    intros c' calls [= <- _]; done.
Qed.

Lemma deInitContext_once_is_enough_witness :
  deInitContext (set_defaultTexture 42 (set_contextInitialized true ctx0))
  = Done tt ctx0 [glDeleteTextures 1 42].
Proof.
  destruct (deInitContext_once_is_enough
              (set_defaultTexture 42 (set_contextInitialized true ctx0)))
    as (_ & H & _).
  apply H. reflexivity.
Defined.

(** X17.  [initContext] is idempotent and all-or-nothing at its two early
    exits: on an initialized context it returns true, and when the loader
    fails it returns false; in both cases without a driver command and
    with the context exactly as it was. *)
Theorem initContext_early_exits (pf : Platform) (a : Answers) (c : Context) :
  (contextInitialized c = true -> initContext pf a c = Done true c [])
  /\ (contextInitialized c = false -> gladLoadGL a = false ->
      initContext pf a c = Done false c []).
Proof.
  split.
  - intros Hc. unfold initContext. unfold mbind, CTX_bind, ctx_bind, self.
    rewrite Hc. reflexivity.
  - intros Hc Hl. unfold initContext. unfold mbind, CTX_bind, ctx_bind, self.
    rewrite Hc, Hl. reflexivity.
Qed.

Lemma initContext_early_exits_witness :
  initContext (mkPlatform glad_modern true true true true true true)
    (mkAnswers false None (mkViewport 0 0 0 0) (mkViewport 0 0 0 0) f32_one 0
       f32_one 0 0 0 (mkTexDriver 0 [0; 0]) 42)
    ctx0
  = Done false ctx0 [].
Proof.
  destruct (initContext_early_exits
              (mkPlatform glad_modern true true true true true true)
              (mkAnswers false None (mkViewport 0 0 0 0) (mkViewport 0 0 0 0) f32_one 0
                 f32_one 0 0 0 (mkTexDriver 0 [0; 0]) 42)
              ctx0) as [_ H].
  apply H; reflexivity.
Defined.

(** ** Reading the driver's state at start-up *)

Lemma read_texture_units_run a n : forall i g,
  0 <= i ->
  Z.of_nat (length (state_textureUnits g)) = i + Z.of_nat n ->
  read_texture_units a n i g =
    Returns tt
      (set_textureUnits
         (take (Z.to_nat i) (state_textureUnits g)
          ++ ((fun j => GL_TEXTURE_BINDING_2D a (GL_TEXTURE0 + j)) <$> seqZ i (Z.of_nat n))) g)
      ((fun j => glActiveTexture (GL_TEXTURE0 + j)) <$> seqZ i (Z.of_nat n)).
Proof.
  induction n as [|n IH]; intros i g Hi Hlen.
  - cbn. rewrite app_nil_r, firstn_all2 by lia. by destruct g.
  - cbn [read_texture_units]. gl_run.
    unfold vec_store. rewrite decide_True by lia. gl_run.
    rewrite IH; cbn [state_textureUnits set_textureUnits];
      [|lia|rewrite length_insert; lia].
    rewrite (seqZ_cons i (Z.of_nat (S n))) by lia.
    replace (Z.pred (Z.of_nat (S n))) with (Z.of_nat n) by lia.
    replace (Z.succ i) with (i + 1) by lia.
    replace (Z.to_nat (i + 1)) with (S (Z.to_nat i)) by lia.
    rewrite (take_S_r _ _ (GL_TEXTURE_BINDING_2D a (GL_TEXTURE0 + i)))
      by (apply list_lookup_insert_eq; lia).
    rewrite take_insert_ge by lia.
    rewrite <- app_assoc. cbn. by destruct g.
Qed.

Lemma driver_bindings_read a :
  (fun j => GL_TEXTURE_BINDING_2D a (GL_TEXTURE0 + j))
    <$> seqZ 0 (Z.of_nat (length (drv_bound (textures a))))
  = drv_bound (textures a).
Proof.
  apply list_eq. intros k. rewrite list_lookup_fmap.
  destruct (decide (k < length (drv_bound (textures a)))%nat) as [Hk|Hk].
  - rewrite lookup_seqZ_lt by lia. cbn. unfold GL_TEXTURE_BINDING_2D.
    replace (Z.to_nat (GL_TEXTURE0 + (0 + Z.of_nat k) - GL_TEXTURE0)) with k by lia.
    destruct (lookup_lt_is_Some_2 _ _ Hk) as [x Hx]. unfold GLuint in *. by rewrite Hx.
  - rewrite lookup_seqZ_ge by lia. cbn. symmetry. apply lookup_ge_None. lia.
Qed.

Lemma tex_calls_activations (units : list Z) d :
  exists active,
    tex_calls ((fun j => glActiveTexture (GL_TEXTURE0 + j)) <$> units) d
    = mkTexDriver active (drv_bound d).
Proof.
  revert d. induction units as [|u units IH]; intros d.
  - exists (drv_active d). by destruct d.
  - cbn. destruct (IH (mkTexDriver (GL_TEXTURE0 + u - GL_TEXTURE0) (drv_bound d)))
      as [active E].
    exists active. exact E.
Qed.

Lemma tex_calls_equation glad blend d :
  tex_calls (equation_calls glad blend ++ [glBlendFunc (srcRGB blend) (dstRGB blend)]) d = d.
Proof.
  unfold equation_calls.
  destruct (GLAD_ES_VERSION_2_0 glad || GLAD_VERSION_1_4 glad); [done|].
  by destruct (GLAD_EXT_blend_minmax glad && GLAD_EXT_blend_subtract glad).
Qed.

Lemma initMaxValues_run pf a c :
  initMaxValues pf a c =
    Done tt
      (set_maxRenderTargets
         (if Canvas_isSupported pf && (GLAD_VERSION_2_0 pf || GLAD_ARB_draw_buffers pf)
          then Z.min (GL_MAX_COLOR_ATTACHMENTS a) (GL_MAX_DRAW_BUFFERS a) else 0)
         (set_maxTextureSize (GL_MAX_TEXTURE_SIZE a)
            (set_object
               (set_maxAnisotropy
                  (if GLAD_EXT_texture_filter_anisotropic (pf_glad pf)
                   then GL_MAX_TEXTURE_MAX_ANISOTROPY_EXT a else f32_one)
                  (object c)) c)))
      [].
Proof.
  unfold initMaxValues.
  destruct (GLAD_EXT_texture_filter_anisotropic (pf_glad pf));
    by destruct (Canvas_isSupported pf && (GLAD_VERSION_2_0 pf || GLAD_ARB_draw_buffers pf)).
Qed.

Lemma tex_commands_default_texture d cur name tail :
  drv_current d = Some cur ->
  tex_commands
    (glGenTextures 1 name
     :: (rebind cur name ++ default_texture_setup ++ rebind name cur) ++ tail) d
  = tex_commands tail d.
Proof.
  intros Hc.
  change (glGenTextures 1 name
          :: (rebind cur name ++ default_texture_setup ++ rebind name cur) ++ tail)
    with ((glGenTextures 1 name
           :: rebind cur name ++ default_texture_setup ++ rebind name cur) ++ tail).
  rewrite tex_commands_app.
  by destruct (tex_commands_rebind_there_and_back d cur name Hc) as [_ ->].
Qed.

Lemma active_unit_read a :
  is_int (drv_active (textures a)) ->
  int_sub (GL_ACTIVE_TEXTURE a) GL_TEXTURE0 = drv_active (textures a).
Proof.
  intros Hi. unfold int_sub, GL_ACTIVE_TEXTURE.
  replace (GL_TEXTURE0 + drv_active (textures a) - GL_TEXTURE0)
    with (drv_active (textures a)) by lia.
  by apply to_int_id.
Qed.

Local Arguments initVendor : simpl never.
Local Arguments setBlendState : simpl never.
Local Arguments read_texture_units : simpl never.
Local Arguments createDefaultTexture : simpl never.
Local Arguments initMaxValues : simpl never.
Local Arguments replicate : simpl never.

Ltac init_prefix Hc Hl Hv :=
  unfold initContext; unfold mbind at 1; unfold CTX_bind, ctx_bind at 1;
  unfold self at 1; rewrite Hc, Hl; cbn [negb].

Ltac init_blend_and_limits :=
  rewrite setBlendState_combined; [| right; discriminate | split; reflexivity ];
  ctx_run; rewrite initMaxValues_run; ctx_run.

Ltac init_facts Hspec :=
  unfold initialized_from, scissor_read, unit_in_range;
  cbn; rewrite <- ?int_sub_add; repeat split; try done; try lia.

(** With shaders: one cached unit per driver unit. *)
Lemma initContext_run_shader pf a c :
  contextInitialized c = false -> gladLoadGL a = true ->
  Shader_isSupported pf = true -> sane_units a ->
  exists c' calls,
    initContext pf a c = Done true c' calls
    /\ initialized_from a c c'
    /\ in_step (object c') (textures a)
    /\ tex_commands calls (textures a) = textures a.
Proof.
  intros Hc Hl Hs [Ha Hi].
  destruct (initVendor_classifies (GL_VENDOR a) (object c)) as (v & Hv & Hspec).
  pose proof (active_unit_read a Hi) as Ecur.
  destruct (lookup_lt_is_Some_2 (drv_bound (textures a))
              (Z.to_nat (drv_active (textures a)))) as [cur Hcur]; [lia|].
  assert (Hb : vec_at (drv_bound (textures a)) (drv_active (textures a)) = Some cur)
    by (unfold vec_at; rewrite decide_True by lia; exact Hcur).
  init_prefix Hc Hl Hv. rewrite Hs.
  destruct pf as [glad v10 v11 v20 adb sh cs]. cbn in Hs. subst sh.
  cbn [GLAD_VERSION_1_0 GLAD_VERSION_1_1 Canvas_isSupported pf_glad].
  destruct v10, cs, v11.
  all: ctx_run; rewrite Hv; ctx_run; rewrite initMatrices_run; ctx_run.
  all: rewrite read_texture_units_run; [| lia | cbn; rewrite length_replicate; lia ].
  all: ctx_run; unfold GL_MAX_COMBINED_TEXTURE_IMAGE_UNITS in *.
  all: rewrite ?length_replicate, ?Nat2Z.id, ?driver_bindings_read, ?Ecur.
  all: init_blend_and_limits.
  all: erewrite createDefaultTexture_run by (cbn; exact Hb).
  all: ctx_run.
  all: change (Z.to_nat 0) with 0%nat; rewrite ?take_0, ?app_nil_l.
  all: eexists _, _; (split; [reflexivity|]).
  all: split; [init_facts Hspec|].
  all: split; [by split|].
  all: rewrite !tex_commands_app, !tex_commands_gl.
  all: destruct (tex_calls_activations
                   (seqZ 0 (Z.of_nat (length (drv_bound (textures a))))) (textures a))
         as [x ->].
  all: rewrite tex_calls_equation.
  all: assert (Er : tex_commands [gl_call (glActiveTexture (GL_ACTIVE_TEXTURE a))]
                      (mkTexDriver x (drv_bound (textures a))) = textures a)
         by (cbn; unfold GL_ACTIVE_TEXTURE;
             replace (GL_TEXTURE0 + drv_active (textures a) - GL_TEXTURE0)
               with (drv_active (textures a)) by lia;
             by destruct (textures a)).
  all: rewrite Er.
  all: first
    [ transitivity (tex_commands [glMatrixMode GL_MODELVIEW] (textures a));
        [ exact (tex_commands_default_texture (textures a) cur (generated_texture a)
                   [glMatrixMode GL_MODELVIEW] Hcur) | reflexivity ]
    | transitivity (tex_commands [] (textures a));
        [ exact (tex_commands_default_texture (textures a) cur (generated_texture a)
                   [] Hcur) | reflexivity ] ].
Qed.

(** Without shaders: a single cached unit. *)
Lemma initContext_run_fixed pf a c :
  contextInitialized c = false -> gladLoadGL a = true ->
  Shader_isSupported pf = false ->
  exists c' calls,
    initContext pf a c = Done true c' calls
    /\ initialized_from a c c'
    /\ state_textureUnits (object c') = [GL_TEXTURE_BINDING_2D a (GL_ACTIVE_TEXTURE a)]
    /\ state_curTextureUnit (object c') = 0.
Proof.
  intros Hc Hl Hs.
  destruct (initVendor_classifies (GL_VENDOR a) (object c)) as (v & Hv & Hspec).
  init_prefix Hc Hl Hv. rewrite Hs.
  destruct pf as [glad v10 v11 v20 adb sh cs]. cbn in Hs. subst sh.
  cbn [GLAD_VERSION_1_0 GLAD_VERSION_1_1 Canvas_isSupported pf_glad].
  destruct v10, cs, v11.
  all: ctx_run; rewrite Hv; ctx_run; rewrite initMatrices_run; ctx_run.
  all: cbv [replicate]; unfold vec_store; cbn [length set_textureUnits state_textureUnits].
  all: rewrite decide_True by lia; ctx_run.
  all: init_blend_and_limits.
  all: erewrite createDefaultTexture_run by reflexivity.
  all: ctx_run.
  all: eexists _, _; (split; [reflexivity|]).
  all: split; [init_facts Hspec|]; by split.
Qed.

Lemma flip_flip H y h : to_int (H - (to_int (H - (y + h)) + h)) = to_int y.
Proof.
  unfold to_int. f_equal.
  replace (H - ((H - (y + h) + 2 ^ 31) mod 2 ^ 32 - 2 ^ 31 + h) + 2 ^ 31)
    with ((H - h + 2 ^ 32) - (H - (y + h) + 2 ^ 31) mod 2 ^ 32) by lia.
  rewrite Zminus_mod_idemp_r.
  replace (H - h + 2 ^ 32 - (H - (y + h) + 2 ^ 31)) with (y + 2 ^ 31) by lia.
  reflexivity.
Qed.

Lemma initContext_run pf a c :
  contextInitialized c = false -> gladLoadGL a = true ->
  (Shader_isSupported pf = true -> sane_units a) ->
  exists c' calls,
    initContext pf a c = Done true c' calls /\ initialized_from a c c'.
Proof.
  intros Hc Hl Hs. destruct (Shader_isSupported pf) eqn:E.
  - destruct (initContext_run_shader pf a c Hc Hl E (Hs eq_refl))
      as (c' & calls & H1 & H2 & _). eauto.
  - destruct (initContext_run_fixed pf a c Hc Hl E) as (c' & calls & H1 & H2 & _).
    eauto.
Qed.

(** X18.  On a shader-capable platform whose driver reports an active
    unit among its units, [initContext] starts the cache in step with the
    driver: it ends with one cached entry per driver unit holding the
    driver's binding, the driver's active unit as current unit, and the
    driver's own texture state exactly as it found it, although it made
    every unit active in turn and bound the new default texture on the
    way. *)
Theorem initContext_starts_in_step (pf : Platform) (a : Answers) (c : Context) :
  contextInitialized c = false -> gladLoadGL a = true ->
  Shader_isSupported pf = true -> sane_units a ->
  exists c' calls,
    initContext pf a c = Done true c' calls
    /\ tex_commands calls (textures a) = textures a
    /\ in_step (object c') (tex_commands calls (textures a))
    /\ state_textureUnits (object c') = drv_bound (textures a)
    /\ state_curTextureUnit (object c') = drv_active (textures a)
    /\ unit_in_range (object c').
Proof.
  intros Hc Hl Hs Ha.
  destruct (initContext_run_shader pf a c Hc Hl Hs Ha)
    as (c' & calls & Hrun & Hinit & Hstep & Hsame).
  exists c', calls. rewrite Hsame. destruct Hstep as [Hb Hu].
  repeat split; try done.
  all: by destruct Hinit as (_ & _ & _ & _ & _ & _ & _ & _ & [? ?] & _).
Qed.

Lemma initContext_starts_in_step_witness :
  exists c' calls,
    initContext (mkPlatform glad_modern true true true true true true)
      (mkAnswers true (Some "NVIDIA Corporation") (mkViewport 0 0 800 600)
         (mkViewport 10 20 100 50) f32_one 0 f32_16 4096 8 8
         (mkTexDriver 1 [3; 5]) 42)
      ctx0
    = Done true c' calls
    /\ state_textureUnits (object c') = [3; 5]
    /\ state_curTextureUnit (object c') = 1.
Proof.
  destruct (initContext_starts_in_step
              (mkPlatform glad_modern true true true true true true)
              (mkAnswers true (Some "NVIDIA Corporation") (mkViewport 0 0 800 600)
                 (mkViewport 10 20 100 50) f32_one 0 f32_16 4096 8 8
                 (mkTexDriver 1 [3; 5]) 42)
              ctx0)
    as (c' & calls & Hrun & _ & _ & Hb & Hu & _).
  - reflexivity.
  - reflexivity.
  - reflexivity.
  - unfold sane_units, is_int, INT_MIN, INT_MAX. cbn. lia.
  - exists c', calls. split; [exact Hrun|]. split; [exact Hb | exact Hu].
Defined.

(** X19.  Once the loader has succeeded [initContext] cannot fail,
    whatever the platform offers (on a shader-capable one the driver's
    active unit is assumed to be one of its units): it returns true with
    the context initialized, the vendor classified, both matrix stacks
    reset to a single identity, the driver's viewport cached, the blend
    state set to the replace blend (a request no driver refuses), the
    generated texture as default texture and the current texture unit in
    range; the texture-memory and draw-call counters are left alone. *)
Theorem initContext_succeeds (pf : Platform) (a : Answers) (c : Context) :
  contextInitialized c = false -> gladLoadGL a = true ->
  (Shader_isSupported pf = true -> sane_units a) ->
  exists c' calls,
    initContext pf a c = Done true c' calls /\ initialized_from a c c'.
Proof. apply initContext_run. Qed.

Lemma initContext_succeeds_witness :
  exists c' calls,
    initContext (mkPlatform glad_legacy false false false false false false)
      (mkAnswers true (Some "Mesa Project") (mkViewport 0 0 800 600)
         (mkViewport 10 20 100 50) f32_one 0 f32_one 1024 0 0
         (mkTexDriver 0 [7]) 42)
      ctx0
    = Done true c' calls
    /\ vendor (object c') = VENDOR_MESA_SOFT
    /\ state_textureUnits (object c') = [7].
Proof.
  destruct (initContext_succeeds
              (mkPlatform glad_legacy false false false false false false)
              (mkAnswers true (Some "Mesa Project") (mkViewport 0 0 800 600)
                 (mkViewport 10 20 100 50) f32_one 0 f32_one 1024 0 0
                 (mkTexDriver 0 [7]) 42)
              ctx0)
    as (c' & calls & Hrun & _).
  - reflexivity.
  - reflexivity.
  - discriminate.
  - exists c', calls. split; [exact Hrun|].
    vm_compute in Hrun. injection Hrun as <- _. split; reflexivity.
Defined.

(** X20.  The scissor [initContext] caches is the driver's box seen from
    the top left, so applying it again gives the driver its own box
    back: after [initContext], [setScissor] of the cached rectangle with
    no Canvas active sends exactly the [GL_SCISSOR_BOX] the driver had
    reported (its y being an [int]) and leaves the context as it is. *)
Theorem initContext_scissor_round_trip (pf : Platform) (a : Answers) (c : Context) :
  contextInitialized c = false -> gladLoadGL a = true ->
  (Shader_isSupported pf = true -> sane_units a) ->
  is_int (vy (GL_SCISSOR_BOX a)) ->
  exists c' calls,
    initContext pf a c = Done true c' calls
    /\ lift (setScissor false (state_scissor (object c'))) c' =
         Done tt c'
           [gl_call (glScissor (vx (GL_SCISSOR_BOX a)) (vy (GL_SCISSOR_BOX a))
                       (vw (GL_SCISSOR_BOX a)) (vh (GL_SCISSOR_BOX a)))].
Proof.
  intros Hc Hl Hs Hy.
  destruct (initContext_run pf a c Hc Hl Hs) as (c' & calls & Hrun & Hinit).
  exists c', calls. split; [exact Hrun|].
  destruct Hinit as (_ & _ & _ & _ & Hview & Hsc & _).
  unfold lift. rewrite setScissor_run, set_scissor_same, Hview, Hsc.
  unfold scissor_read. cbn [vx vy vw vh].
  rewrite flip_flip, to_int_id by done. by destruct c'.
Qed.

Lemma initContext_scissor_round_trip_witness :
  exists c' calls,
    initContext (mkPlatform glad_modern true true true true true true)
      (mkAnswers true None (mkViewport 0 0 800 600)
         (mkViewport 10 20 100 50) f32_one 0 f32_16 4096 8 8
         (mkTexDriver 0 [0; 0]) 42)
      ctx0
    = Done true c' calls
    /\ lift (setScissor false (state_scissor (object c'))) c' =
         Done tt c' [gl_call (glScissor 10 20 100 50)].
Proof.
  apply (initContext_scissor_round_trip
           (mkPlatform glad_modern true true true true true true)
           (mkAnswers true None (mkViewport 0 0 800 600)
              (mkViewport 10 20 100 50) f32_one 0 f32_16 4096 8 8
              (mkTexDriver 0 [0; 0]) 42)
           ctx0).
  - reflexivity.
  - reflexivity.
  - intros _. unfold sane_units, is_int, INT_MIN, INT_MAX. cbn. lia.
  - unfold is_int, INT_MIN, INT_MAX. cbn. lia.
Defined.
